(** * gen_favicon: candidate discovery, scoring and selection

    A shallow embedding of [gen_favicon.py].  Python strings are modelled as
    [string], read as sequences of code points below 256; [str.lower],
    [str.strip], [in], [endswith] and [split] are written out on that
    type.  Scores are [Z].  The program runs in a small state and error
    monad over a log and a file system; the network, the HTML parser,
    [urljoin] and the URL path extension come in an [environment] record,
    the imaging library in a [PIL.library] record. *)

From Stdlib Require Import ZArith NArith Ascii String List Bool Lia.
From Stdlib Require Import Sorting.Sorted Sorting.Permutation.
From stdpp Require Import base strings gmap list.

Local Open Scope string_scope.
Local Open Scope Z_scope.
Local Open Scope list_scope.

(** ** Python string primitives *)

Module Py.

(** [str.lower] on one code point below 256: A-Z and the Latin-1 capitals
    (U+00C0..U+00DE except the multiplication sign U+00D7) move up by 32. *)
Definition lower_char (c : ascii) : ascii :=
  let n := N_of_ascii c in
  if ((65 <=? n) && (n <=? 90) ||
      (192 <=? n) && (n <=? 222) && negb (n =? 215))%N
  then ascii_of_N (n + 32) else c.

Fixpoint lower (s : string) : string :=
  match s with
  | EmptyString => EmptyString
  | String c s' => String (lower_char c) (lower s')
  end.

(** [s.startswith(p)] *)
Fixpoint starts_with (p s : string) : bool :=
  match p with
  | EmptyString => true
  | String a p' =>
      match s with
      | EmptyString => false
      | String b s' => Ascii.eqb a b && starts_with p' s'
      end
  end.

(** [kw in l]: some suffix of [l] starts with [kw]. *)
Fixpoint contains (kw l : string) : bool :=
  starts_with kw l ||
  match l with
  | EmptyString => false
  | String _ l' => contains kw l'
  end.

(** [l.endswith(ext)]: some suffix of [l] is [ext]. *)
Fixpoint ends_with (ext l : string) : bool :=
  String.eqb l ext ||
  match l with
  | EmptyString => false
  | String _ l' => ends_with ext l'
  end.

(** [any(p(x) for x in xs)] *)
Definition any {A} (p : A -> bool) (xs : list A) : bool := existsb p xs.

(** [enumerate(xs, start)] *)
Fixpoint enumerate {A} (start : Z) (xs : list A) : list (Z * A) :=
  match xs with
  | [] => []
  | x :: xs' => (start, x) :: enumerate (start + 1) xs'
  end.

(** [int(s)] for a string of decimal digits. *)
Definition digit (c : ascii) : Z := Z.of_N (N_of_ascii c) - 48.

Fixpoint int_from (acc : Z) (s : string) : Z :=
  match s with
  | EmptyString => acc
  | String c s' => int_from (10 * acc + digit c) s'
  end.

Definition int (s : string) : Z := int_from 0 s.

(** Truthiness of a value that is [None] or a string. *)
Definition truthy (o : option string) : bool :=
  match o with
  | None => false
  | Some s => negb (String.eqb s "")
  end.

(** [str.isspace] on one code point below 256. *)
Definition is_space (c : ascii) : bool :=
  let n := N_of_ascii c in
  ((9 <=? n) && (n <=? 13) || (28 <=? n) && (n <=? 32) ||
   (n =? 133) || (n =? 160))%N.

(** [s.split(sep)] for a one-character separator: never the empty list. *)
Fixpoint split (sep : ascii) (s : string) : list string :=
  match s with
  | EmptyString => [EmptyString]
  | String c s' =>
      if Ascii.eqb c sep then EmptyString :: split sep s'
      else match split sep s' with
           | [] => [String c EmptyString]
           | p :: ps => String c p :: ps
           end
  end.

Fixpoint lstrip (s : string) : string :=
  match s with
  | EmptyString => EmptyString
  | String c s' => if is_space c then lstrip s' else s
  end.

Fixpoint rstrip (s : string) : string :=
  match s with
  | EmptyString => EmptyString
  | String c s' =>
      match rstrip s' with
      | EmptyString => if is_space c then EmptyString else String c EmptyString
      | r => String c r
      end
  end.

(** [s.strip()] *)
Definition strip (s : string) : string := lstrip (rstrip s).

(** [xs[0]] on a list of strings; [None] stands for IndexError. *)
Definition first {A} (xs : list A) : option A := head xs.

End Py.

(** ** Module constants *)

Definition PAGE_URL : string :=
  "https://www.scouting.org/merit-badges/cybersecurity/".
Definition ASSETS_IMG_DIR : string := "/workspace/assets/img".
Definition FAVICON_PATH : string := "/workspace/favicon.ico".
Definition DOWNLOADED_BASENAME : string := "cybersecurity-badge-source".

Definition IMG_EXTS : list string := [".png"; ".jpg"; ".jpeg"; ".webp"; ".svg"].
Definition RASTER_PREF : list string := [".png"; ".jpg"; ".jpeg"; ".webp"].

(** ** score_url *)

Definition KEYWORD_BONUS : list (string * Z) :=
  [("cybersecurity", 12); ("cyber", 10); ("badge", 8); ("merit", 6);
   ("emblem", 6)].

Definition KEYWORD_PENALTY : list (string * Z) :=
  [("fondo", -20); ("blanco", -10); ("liso", -8); ("background", -12);
   ("hero", -8); ("logo", -15); ("desktop@2x", -10)].

Definition HOSTING_BONUS : list (string * Z) :=
  [("wp-content", 2); ("uploads", 2); ("cdn", 2); ("scouting.org", 1)].

Definition SIZE_HINTS : list string :=
  ["2048"; "1536"; "1024"; "768"; "512"; "256"; "128"].

(** [for kw, pts in table: if kw in l: score += pts] *)
Definition add_keywords (table : list (string * Z)) (l : string) (score : Z) : Z :=
  fold_left
    (fun sc entry => if Py.contains (fst entry) l then sc + snd entry else sc)
    table score.

(** [for idx, ext in enumerate(RASTER_PREF[::-1], start=1):
       if l.endswith(ext): score += 10 + idx] *)
Definition add_raster (l : string) (score : Z) : Z :=
  fold_left
    (fun sc entry => if Py.ends_with (snd entry) l then sc + (10 + fst entry) else sc)
    (Py.enumerate 1 (rev RASTER_PREF)) score.

(** [if l.endswith(".svg"): score += 5] *)
Definition add_svg (l : string) (score : Z) : Z :=
  if Py.ends_with ".svg" l then score + 5 else score.

(** The size loop stops at the first hint found ([break]). *)
Fixpoint add_size (sizes : list string) (l : string) (score : Z) : Z :=
  match sizes with
  | [] => score
  | sz :: rest =>
      if Py.contains sz l then score + Z.quot (Py.int sz) 128
      else add_size rest l score
  end.

Definition score_url (url : string) : Z :=
  let l := Py.lower url in
  let score := 0 in
  let score := add_keywords KEYWORD_BONUS l score in
  let score := add_keywords KEYWORD_PENALTY l score in
  let score := add_keywords HOSTING_BONUS l score in
  let score := add_raster l score in
  let score := add_svg l score in
  add_size SIZE_HINTS l score.

(** The part of the score contributed by lines 50-54: the raster loop and
    the vector test, started from zero. *)
Definition format_bonus (l : string) : Z := add_svg l (add_raster l 0).

(** ** parse_srcset *)

(** [part.strip().split(" ")[0]] *)
Definition srcset_url (part : string) : string :=
  match Py.first (Py.split " "%char (Py.strip part)) with
  | Some url => url
  | None => EmptyString
  end.

Definition parse_srcset (srcset_value : string) : list string :=
  fold_left
    (fun candidates part =>
       let url := srcset_url part in
       if negb (String.eqb url "") then candidates ++ [url] else candidates)
    (Py.split ","%char srcset_value) [].

(** ** find_candidate_image_urls *)

(** A parsed tag: its name and its attribute dictionary. *)
Record element : Type := Element {
  tag_name : string;
  attrs : gmap string string
}.

(** The parsed document, as its tags in document order. *)
Definition soup : Type := list element.

Definition find_all (name : string) (doc : soup) : list element :=
  List.filter (fun e => String.eqb (tag_name e) name) doc.

(** [tag.get(key)] *)
Definition get (e : element) (key : string) : option string := attrs e !! key.

(** [any(u.lower().endswith(ext) for ext in IMG_EXTS)] *)
Definition has_img_ext (u : string) : bool :=
  Py.any (fun ext => Py.ends_with ext (Py.lower u)) IMG_EXTS.

(** [any(u.lower().endswith(e) for e in RASTER_PREF)] *)
Definition is_raster_url (u : string) : bool :=
  Py.any (fun ext => Py.ends_with ext (Py.lower u)) RASTER_PREF.

(** The uniquify-and-filter loop: the pair of [dedup] and [seen]. *)
Definition dedup_step (st : list string * gset string) (u : string)
  : list string * gset string :=
  let '(dedup, seen) := st in
  if negb (has_img_ext u) then st
  else if decide (u ∈ seen) then st
  else (dedup ++ [u], {[u]} ∪ seen).

Definition dedup_urls (urls : list string) : list string :=
  fst (fold_left dedup_step urls ([], ∅)).

(** [xs.sort(key=key, reverse=True)]: the stable sort by descending key,
    written as a stable insertion sort.  An element is placed after the
    strictly larger keys and before equal keys of elements that followed it
    in the input. *)
Fixpoint insert_desc {A} (key : A -> Z) (x : A) (l : list A) : list A :=
  match l with
  | [] => [x]
  | y :: l' => if key x <? key y then y :: insert_desc key x l' else x :: l
  end.

Fixpoint sort_desc {A} (key : A -> Z) (l : list A) : list A :=
  match l with
  | [] => []
  | x :: l' => insert_desc key x (sort_desc key l')
  end.

(** Lines 80-91: uniquify, filter and sort the pooled references. *)
Definition rank_urls (urls : list string) : list string :=
  sort_desc score_url (dedup_urls urls).

Section Discovery.

(** [urllib.parse.urljoin] *)
Variable urljoin : string -> string -> string.

Definition img_refs (base_url : string) (urls : list string) (img : element)
  : list string :=
  let urls :=
    match get img "src" with
    | Some src =>
        if Py.truthy (Some src) then urls ++ [urljoin base_url src] else urls
    | None => urls
    end in
  match get img "srcset" with
  | Some srcset =>
      if Py.truthy (Some srcset)
      then urls ++ List.map (urljoin base_url) (parse_srcset srcset)
      else urls
  | None => urls
  end.

Definition source_refs (base_url : string) (urls : list string) (source : element)
  : list string :=
  match get source "srcset" with
  | Some srcset =>
      if Py.truthy (Some srcset)
      then urls ++ List.map (urljoin base_url) (parse_srcset srcset)
      else urls
  | None => urls
  end.

Definition anchor_refs (base_url : string) (urls : list string) (a : element)
  : list string :=
  match get a "href" with
  | Some href =>
      if Py.truthy (Some href) && has_img_ext href
      then urls ++ [urljoin base_url href] else urls
  | None => urls
  end.

(** Lines 64-79: the pooled references, before filtering. *)
Definition extract_refs (doc : soup) (base_url : string) : list string :=
  let urls := [] in
  let urls := fold_left (img_refs base_url) (find_all "img" doc) urls in
  let urls := fold_left (source_refs base_url) (find_all "source" doc) urls in
  fold_left (anchor_refs base_url) (find_all "a" doc) urls.

Definition find_candidate_image_urls (doc : soup) (base_url : string)
  : list string :=
  rank_urls (extract_refs doc base_url).

End Discovery.

(** ** Selection (lines 147-180 of main) *)

Definition bad_keywords : list string :=
  ["fondo"; "blanco"; "liso"; "background"; "hero"; "logo";
   "scouting-america-logo"].

(** [any(b in lu for b in bad_keywords)] *)
Definition is_blocked (lu : string) : bool :=
  Py.any (fun b => Py.contains b lu) bad_keywords.

Definition ends_raster (lu : string) : bool :=
  Py.any (fun ext => Py.ends_with ext lu) RASTER_PREF.

(** One selection loop: skip blocked URLs ([continue]), stop at the first
    URL whose lowercased form is accepted ([break]). *)
Fixpoint select_pass (accept : string -> bool) (candidates : list string)
  : option string :=
  match candidates with
  | [] => None
  | u :: rest =>
      let lu := Py.lower u in
      if is_blocked lu then select_pass accept rest
      else if accept lu then Some u
      else select_pass accept rest
  end.

Definition accept_cyber (lu : string) : bool :=
  Py.contains "cyber" lu && ends_raster lu.

Definition accept_badge (lu : string) : bool :=
  (Py.contains "badge" lu || Py.contains "merit" lu) && ends_raster lu.

Definition accept_raster (lu : string) : bool := ends_raster lu.

(** The value of [chosen] at line 181; [None] stands for the IndexError of
    [candidates[0]] on an empty list. *)
Definition select (candidates : list string) : option string :=
  let chosen : option string := None in
  let chosen := select_pass accept_cyber candidates in
  let chosen :=
    if negb (Py.truthy chosen) then select_pass accept_badge candidates
    else chosen in
  let chosen :=
    if negb (Py.truthy chosen) then select_pass accept_raster candidates
    else chosen in
  match
    (if negb (Py.truthy chosen) then Py.first candidates else chosen)
  with
  | None => None
  | Some c =>
      if negb (Py.truthy (Some c)) then Py.first candidates else Some c
  end.

(** ** Effects: the log, the network and the file system *)

Definition bytes : Type := list Byte.byte.

Inductive event : Type :=
| Printed (line : string)
| Requested (url : string)
| Wrote (path : string).

Record world : Type := World {
  files : gmap string bytes;
  trace : list event
}.

(** How a run ends early. *)
Inductive failure : Type :=
| SystemExit (msg : string)
| RequestException (url : string)
| HTTPError (url : string)
| IndexError.

(** A string passed to [SystemExit] is printed and the exit status is 1; an
    uncaught exception also gives status 1. *)
Definition exit_status {A} (r : failure + A) : Z :=
  match r with
  | inl _ => 1
  | inr _ => 0
  end.

Definition M (A : Type) : Type := world -> (failure + A) * world.

Definition ret {A} (a : A) : M A := fun w => (inr a, w).

Definition bind {A B} (m : M A) (k : A -> M B) : M B :=
  fun w =>
    match m w with
    | (inl e, w') => (inl e, w')
    | (inr a, w') => k a w'
    end.

Definition raise {A} (e : failure) : M A := fun w => (inl e, w).

Definition emit (ev : event) : M unit :=
  fun w => (inr tt, {| files := files w; trace := trace w ++ [ev] |}).

Notation "'let*' x ':=' m 'in' k" := (bind m (fun x => k))
  (at level 10, x name, m at level 100, k at level 200).
Notation "m ';;' k" := (bind m (fun _ => k))
  (at level 100, k at level 200, right associativity).

(** [print(a, b)] writes the arguments separated by one space. *)
Definition print (line : string) : M unit := emit (Printed line).

(** [with open(path, "wb") as f: f.write(data)] *)
Definition write_file (path : string) (data : bytes) : M unit :=
  fun w =>
    (inr tt, {| files := <[path := data]> (files w);
                trace := trace w ++ [Wrote path] |}).

Fixpoint for_each {A} (xs : list A) (body : A -> M unit) : M unit :=
  match xs with
  | [] => ret tt
  | x :: xs' => body x ;; for_each xs' body
  end.

(** [os.path.join(dir, name)] for a relative [name]. *)
Definition path_join (dir name : string) : string :=
  String.append dir (String.append "/" name).

Definition HEADERS : list (string * string) :=
  [("User-Agent", "Mozilla/5.0 (X11; Linux x86_64) AppleWebKit/537.36 (KHTML, like Gecko) Chrome/124.0.0.0 Safari/537.36");
   ("Accept", "text/html,application/xhtml+xml,application/xml;q=0.9,image/avif,image/webp,*/*;q=0.8")].

(** [{**HEADERS, "Referer": PAGE_URL}] *)
Definition DOWNLOAD_HEADERS : list (string * string) :=
  HEADERS ++ [("Referer", PAGE_URL)].

(** What [requests.get] hands back. *)
Record response : Type := Response {
  status_ok : bool;
  text : string;
  content : bytes
}.

(** The image handed to the transform, with the state of lines 182-207. *)
Record source : Type := Source {
  src_chosen : string;
  src_data : bytes;
  src_ext : string;
  src_out : string
}.

Definition ICON_SIZES : list (Z * Z) :=
  [(16, 16); (32, 32); (48, 48); (64, 64); (96, 96); (128, 128); (256, 256)].

(** ** to_square_rgba over the imaging library's interface *)

Module PIL.

(** The operations of the imaging library the program calls.  Drawing and
    pasting change an image in place; here they return the image they
    leave. *)
Record library : Type := Library {
  Image : Type;
  (** [Image.open(io.BytesIO(data))]; the error is the exception text. *)
  open : bytes -> string + Image;
  mode : Image -> string;
  size : Image -> Z * Z;
  convert : Image -> string -> Image;
  crop : Image -> Z * Z * Z * Z -> Image;
  new : string -> Z * Z -> list Z -> Image;
  (** [ImageDraw.Draw(im).ellipse(box, fill=, outline=, width=)] *)
  ellipse :
    Image -> Z * Z * Z * Z -> option (list Z) -> option (list Z) -> Z -> Image;
  (** [base.paste(im, offset, mask)] *)
  paste : Image -> Image -> Z * Z -> Image -> Image;
  alpha_composite : Image -> Image -> Image;
  (** [im.resize(size, Image.LANCZOS)] *)
  resize : Image -> Z * Z -> Image;
  (** [im.save(path, format="ICO", sizes=sizes)], as the bytes written. *)
  save_ico : Image -> list (Z * Z) -> bytes
}.

End PIL.

Definition square_side (w h : Z) : Z := Z.min w h.

Definition crop_box (w h : Z) : Z * Z * Z * Z :=
  let side := square_side w h in
  let left := (w - side) / 2 in
  let top := (h - side) / 2 in
  (left, top, left + side, top + side).

Definition ring_width (side : Z) : Z := Z.max 1 (side / 32).

Definition RING_COLOR : list Z := [255; 215; 0; 180].

Definition to_square_rgba (pil : PIL.library) (img : PIL.Image pil)
  : PIL.Image pil :=
  let img :=
    if negb (String.eqb (PIL.mode pil img) "RGBA"
             || String.eqb (PIL.mode pil img) "LA")
    then PIL.convert pil img "RGBA" else img in
  let '(w, h) := PIL.size pil img in
  let side := square_side w h in
  let img_cropped := PIL.crop pil img (crop_box w h) in
  let mask := PIL.new pil "L" (side, side) [0] in
  let mask :=
    PIL.ellipse pil mask (0, 0, side - 1, side - 1) (Some [255]) None 1 in
  let base := PIL.new pil "RGBA" (side, side) [0; 0; 0; 0] in
  let base := PIL.paste pil base img_cropped (0, 0) mask in
  let ring := PIL.new pil "RGBA" (side, side) [0; 0; 0; 0] in
  let ring :=
    PIL.ellipse pil ring (1, 1, side - 2, side - 2) None (Some RING_COLOR)
      (ring_width side) in
  PIL.alpha_composite pil base ring.

(** ** main *)

(** What the program reaches outside itself. *)
Record environment : Type := Environment {
  (** [urllib.parse.urljoin] *)
  urljoin : string -> string -> string;
  (** [os.path.splitext(urlparse(url).path)[1]] *)
  url_path_ext : string -> string;
  (** [requests.get(url, headers=..., timeout=30)]; [None] when it raises. *)
  http_get : string -> list (string * string) -> option response;
  (** [BeautifulSoup(html, "html.parser")] *)
  parse_html : string -> soup
}.

(** Lines 143-145: the log of the eight best candidates. *)
Definition announce (candidates : list string) : M unit :=
  print "Candidates (top 8):" ;;
  for_each (firstn 8 candidates) (fun u => print (String.append " - " u)).

Definition out_src_of (ext : string) : string :=
  path_join ASSETS_IMG_DIR (String.append DOWNLOADED_BASENAME ext).

Section Main.

Variable env : environment.
Variable pil : PIL.library.

Definition get_page_text (url : string) : M string :=
  emit (Requested url) ;;
  match http_get env url HEADERS with
  | Some r => ret (text r)
  | None => raise (RequestException url)
  end.

Definition download_bytes (url : string) : M bytes :=
  emit (Requested url) ;;
  match http_get env url DOWNLOAD_HEADERS with
  | Some r => if status_ok r then ret (content r) else raise (HTTPError url)
  | None => raise (RequestException url)
  end.

(** [os.path.splitext(parsed.path)[1] or ".img"] *)
Definition ext_of (chosen : string) : string :=
  let e := url_path_ext env chosen in
  if String.eqb e "" then ".img" else e.

(** The state lines 182-191 leave for a URL answered by [r]. *)
Definition saved (u : string) (r : response) : source :=
  Source u (content r) (ext_of u) (out_src_of (ext_of u)).

(** Lines 182-191: download the chosen URL and save it. *)
Definition save_source (chosen : string) : M source :=
  let* data := download_bytes chosen in
  let ext := ext_of chosen in
  let out_src := out_src_of ext in
  write_file out_src data ;;
  print (String.append "Saved source image: " out_src) ;;
  ret (Source chosen data ext out_src).

(** Lines 196-207: the scan for a raster candidate; the first one found is
    downloaded and saved, and the loop ends. *)
Fixpoint switch_to_raster (candidates : list string) (cur : source) : M source :=
  match candidates with
  | [] => ret cur
  | u :: rest =>
      if is_raster_url u then
        print (String.append "Switching to raster candidate: " u) ;;
        save_source u
      else switch_to_raster rest cur
  end.

(** Lines 147-207: from the ranked candidates to the bytes to decode. *)
Definition acquire_source (candidates : list string) : M source :=
  let* chosen :=
    match select candidates with
    | Some c => ret c
    | None => raise IndexError
    end in
  print (String.append "Chosen image: " chosen) ;;
  let* cur := save_source chosen in
  if String.eqb (Py.lower (src_ext cur)) ".svg"
  then switch_to_raster candidates cur
  else ret cur.

(** Lines 209-225: decode, transform and write the icon. *)
Definition write_icon (cur : source) : M unit :=
  let* img :=
    match PIL.open pil (src_data cur) with
    | inr img => ret img
    | inl e =>
        raise (SystemExit
                 (String.append "Failed to open image from "
                    (String.append (src_chosen cur) (String.append ": " e))))
    end in
  let square := to_square_rgba pil img in
  let base_side := fold_right Z.max 0 (List.map fst ICON_SIZES) in
  let hi :=
    if fst (PIL.size pil square) <? base_side
    then PIL.resize pil square (base_side, base_side) else square in
  write_file FAVICON_PATH (PIL.save_ico pil hi ICON_SIZES) ;;
  print (String.append "Wrote " FAVICON_PATH).

Definition main : M unit :=
  print (String.append "Fetching page: " PAGE_URL) ;;
  let* html := get_page_text PAGE_URL in
  let doc := parse_html env html in
  let candidates := find_candidate_image_urls (urljoin env) doc PAGE_URL in
  match candidates with
  | [] => raise (SystemExit "No candidate images found on page")
  | _ :: _ =>
      announce candidates ;;
      let* cur := acquire_source candidates in
      write_icon cur
  end.

End Main.

(** ** Notions the specification uses *)

(** Two characters that are the same letter up to case. *)
Definition case_variant (a b : ascii) : bool :=
  Ascii.eqb a b || Ascii.eqb (Py.lower_char a) b || Ascii.eqb a (Py.lower_char b).

(** Two URLs that differ only in letter case. *)
Fixpoint same_modulo_case (u v : string) : bool :=
  match u, v with
  | EmptyString, EmptyString => true
  | String a u', String b v' => case_variant a b && same_modulo_case u' v'
  | _, _ => false
  end.

(** A candidate the second pass accepts: not blocked, raster, and its
    lowercased URL contains "badge" or "merit". *)
Definition badge_candidate (u : string) : bool :=
  let lu := Py.lower u in
  negb (is_blocked lu)
  && (Py.contains "badge" lu || Py.contains "merit" lu)
  && ends_raster lu.

(** Candidates a pass walks over without stopping. *)
Definition passed_over (accept : string -> bool) (c : string) : Prop :=
  is_blocked (Py.lower c) = true \/ accept (Py.lower c) = false.

(** ** A concrete world for the examples *)

(** The path extension of a URL that has a path and no query or fragment:
    [os.path.splitext] on its last segment, where a dot counts only after a
    character of the segment that is not a dot. *)
Fixpoint splitext_from (seen : bool) (acc s : string) : string :=
  match s with
  | EmptyString => acc
  | String c s' =>
      if Ascii.eqb c "/" then splitext_from false EmptyString s'
      else if Ascii.eqb c "." then
        (if seen then splitext_from true s s' else splitext_from false acc s')
      else splitext_from true acc s'
  end.

Definition plain_path_ext (url : string) : string :=
  splitext_from false EmptyString url.

Definition SVG_BYTES : bytes := [Byte.x3c; Byte.x73; Byte.x76; Byte.x67].
Definition PNG_BYTES : bytes := [Byte.x89; Byte.x50; Byte.x4e; Byte.x47].

(** A server with a vector icon and a raster logo. *)
Definition demo_http_get (url : string) (headers : list (string * string))
  : option response :=
  if String.eqb url PAGE_URL then Some (Response true "<html>" [])
  else if String.eqb url "https://x.org/icon.svg"
  then Some (Response true "" SVG_BYTES)
  else if String.eqb url "https://x.org/logo.png"
  then Some (Response true "" PNG_BYTES)
  else Some (Response false "" []).

Definition demo_page : soup :=
  [Element "img" {[ "src" := "https://x.org/logo.png" ]};
   Element "a" {[ "href" := "https://x.org/icon.svg" ]}].

Definition demo_candidates : list string :=
  ["https://x.org/icon.svg"; "https://x.org/logo.png"].

(** References that are already absolute are returned as they are. *)
Definition demo_urljoin (base url : string) : string := url.

Definition world0 : world := World ∅ [].

(** Images stand for their bytes: every byte string decodes, and the
    imaging operations leave the image they start from. *)
Definition demo_pil : PIL.library :=
  {| PIL.Image := bytes;
     PIL.open := fun data => inr data;
     PIL.mode := fun _ => "RGBA";
     PIL.size := fun _ => (256, 256);
     PIL.convert := fun img _ => img;
     PIL.crop := fun img _ => img;
     PIL.new := fun _ _ _ => [];
     PIL.ellipse := fun img _ _ _ _ => img;
     PIL.paste := fun _ img _ _ => img;
     PIL.alpha_composite := fun img _ => img;
     PIL.resize := fun img _ => img;
     PIL.save_ico := fun img _ => img |}.

Definition demo_env (doc : soup) : environment :=
  {| urljoin := demo_urljoin;
     url_path_ext := plain_path_ext;
     http_get := demo_http_get;
     parse_html := fun _ => doc |}.

Definition SVG_PATH : string :=
  "/workspace/assets/img/cybersecurity-badge-source.svg".
Definition PNG_PATH : string :=
  "/workspace/assets/img/cybersecurity-badge-source.png".

(** [y in l] on a list of strings. *)
Definition mem (y : string) (l : list string) : bool :=
  existsb (String.eqb y) l.

(** The distinct strings of a list, each at the place of its first
    occurrence. *)
Fixpoint first_seen (l : list string) : list string :=
  match l with
  | [] => []
  | x :: l' => x :: List.filter (fun y => negb (String.eqb y x)) (first_seen l')
  end.

(** The text of a string before its first space character (U+0020). *)
Fixpoint before_space (s : string) : string :=
  match s with
  | EmptyString => EmptyString
  | String c s' =>
      if Ascii.eqb c " " then EmptyString else String c (before_space s')
  end.

Fixpoint take_nonspace (s : string) : string :=
  match s with
  | EmptyString => EmptyString
  | String c s' =>
      if Py.is_space c then EmptyString else String c (take_nonspace s')
  end.

(** The first whitespace-delimited token of an entry, in the words of the
    specification: skip leading whitespace, read up to the next whitespace
    character. *)
Definition first_ws_token (entry : string) : string :=
  take_nonspace (Py.lstrip entry).

(** The source-set parse as the specification words it. *)
Definition spec_parse_srcset (srcset_value : string) : list string :=
  List.filter (fun url => negb (String.eqb url ""))
    (List.map first_ws_token (Py.split "," srcset_value)).

Fixpoint no_space (s : string) : bool :=
  match s with
  | EmptyString => true
  | String c s' => negb (Py.is_space c) && no_space s'
  end.

(** [sep.join(parts)] *)
Fixpoint join (sep : string) (parts : list string) : string :=
  match parts with
  | [] => EmptyString
  | p :: ps =>
      match ps with
      | [] => p
      | _ :: _ => String.append p (String.append sep (join sep ps))
      end
  end.

Fixpoint has_char (c : ascii) (s : string) : bool :=
  match s with
  | EmptyString => false
  | String a s' => Ascii.eqb a c || has_char c s'
  end.

Definition TAB : string := String "009" EmptyString.

(** ** Notions used by the further properties *)

(** A candidate the first pass accepts. *)
Definition cyber_candidate (u : string) : bool :=
  let lu := Py.lower u in
  negb (is_blocked lu) && accept_cyber lu.

(** A candidate the third pass accepts: a raster URL that is not blocked. *)
Definition open_raster (u : string) : bool :=
  let lu := Py.lower u in
  negb (is_blocked lu) && ends_raster lu.

Fixpoint string_forall (p : ascii -> bool) (s : string) : bool :=
  match s with
  | EmptyString => true
  | String c s' => p c && string_forall p s'
  end.

(** The string is empty or starts with a character that is not whitespace. *)
Definition head_nonspace (s : string) : bool :=
  match s with
  | EmptyString => true
  | String c _ => negb (Py.is_space c)
  end.

(** The URLs requested and the paths written in a stretch of the log. *)
Definition requests (evs : list event) : list string :=
  flat_map (fun ev => match ev with Requested u => [u] | _ => [] end) evs.

Definition writes (evs : list event) : list string :=
  flat_map (fun ev => match ev with Wrote p => [p] | _ => [] end) evs.

(** The two places the program writes to: the icon, and the source image
    under its stem with some extension. *)
Definition allowed_path (p : string) : Prop :=
  p = FAVICON_PATH \/ exists ext, p = out_src_of ext.

(** A computation that, from any world, appends to the log a stretch with at
    most [nreq] requests and [nwr] writes, all to allowed paths, and leaves
    every file it did not write as it was. *)
Definition confined {A} (m : M A) (nreq nwr : nat) : Prop :=
  forall w, exists evs,
    trace (snd (m w)) = trace w ++ evs
    /\ (length (requests evs) <= nreq)%nat
    /\ (length (writes evs) <= nwr)%nat
    /\ Forall allowed_path (writes evs)
    /\ (forall p, ~ In p (writes evs) -> files (snd (m w)) !! p = files w !! p).


(** An imaging library that decodes nothing. *)
Definition broken_pil : PIL.library :=
  {| PIL.Image := bytes;
     PIL.open := fun _ => inl "cannot identify image file";
     PIL.mode := fun _ => "RGBA";
     PIL.size := fun _ => (256, 256);
     PIL.convert := fun img _ => img;
     PIL.crop := fun img _ => img;
     PIL.new := fun _ _ _ => [];
     PIL.ellipse := fun img _ _ _ _ => img;
     PIL.paste := fun _ img _ _ => img;
     PIL.alpha_composite := fun img _ => img;
     PIL.resize := fun img _ => img;
     PIL.save_ico := fun img _ => img |}.

(** No network. *)
Definition offline_env : environment :=
  {| urljoin := demo_urljoin;
     url_path_ext := plain_path_ext;
     http_get := fun _ _ => None;
     parse_html := fun _ => [] |}.

Definition has_referer (headers : list (string * string)) : bool :=
  existsb (fun h => String.eqb (fst h) "Referer") headers.

(** The demo server answering the page request, the one made without a
    referer, with a failure status and the same body. *)
Definition failing_page_env (doc : soup) : environment :=
  {| urljoin := demo_urljoin;
     url_path_ext := plain_path_ext;
     http_get := fun url headers =>
       if String.eqb url PAGE_URL && negb (has_referer headers)
       then Some (Response false "<html>" [])
       else demo_http_get url headers;
     parse_html := fun _ => doc |}.

Definition raster_page : soup :=
  [Element "img" {[ "src" := "https://x.org/logo.png" ]}].

Definition missing_page : soup :=
  [Element "img" {[ "src" := "https://x.org/missing.png" ]}].

Definition stale_page : soup :=
  [Element "img" {[ "src" := "https://x.org/old-logo.png" ]};
   Element "a" {[ "href" := "https://x.org/icon.svg" ]}].

(** * Properties *)

(** ** String primitives *)

Lemma lower_char_idem c : Py.lower_char (Py.lower_char c) = Py.lower_char c.
Proof. destruct c as [[] [] [] [] [] [] [] []]; reflexivity. Qed.

Lemma lower_idem s : Py.lower (Py.lower s) = Py.lower s.
Proof.
  induction s as [|c s IH]; simpl; [reflexivity|].
  now rewrite lower_char_idem, IH.
Qed.

Lemma case_variant_lower a b :
  case_variant a b = true -> Py.lower_char a = Py.lower_char b.
Proof.
  unfold case_variant. rewrite !orb_true_iff, !Ascii.eqb_eq.
  intros [[->| <-]| ->]; auto using lower_char_idem.
Qed.

Lemma same_modulo_case_lower u : forall v,
  same_modulo_case u v = true -> Py.lower u = Py.lower v.
Proof.
  induction u as [|a u IH]; intros [|b v]; simpl; try discriminate; auto.
  rewrite andb_true_iff. intros [Hc Hr].
  now rewrite (case_variant_lower _ _ Hc), (IH _ Hr).
Qed.

Lemma starts_with_app k1 k2 l :
  Py.starts_with (String.append k1 k2) l = true -> Py.starts_with k1 l = true.
Proof.
  revert l. induction k1 as [|a k1 IH]; intros l; simpl; [reflexivity|].
  destruct l as [|b l]; [discriminate|].
  rewrite !andb_true_iff. intros [? ?]; split; auto.
Qed.

Lemma contains_app k1 k2 l :
  Py.contains (String.append k1 k2) l = true -> Py.contains k1 l = true.
Proof.
  induction l as [|b l IH].
  - simpl. rewrite !orb_false_r. apply starts_with_app.
  - intros H. apply orb_true_iff in H. apply orb_true_iff.
    destruct H as [H|H]; [left; eapply starts_with_app; exact H|right; auto].
Qed.

Lemma ends_with_nil ext : Py.ends_with ext "" = String.eqb "" ext.
Proof. unfold Py.ends_with. apply orb_false_r. Qed.

Lemma ends_with_cons ext c l :
  Py.ends_with ext (String c l) = String.eqb (String c l) ext || Py.ends_with ext l.
Proof. reflexivity. Qed.

Lemma ends_with_refl ext : Py.ends_with ext ext = true.
Proof.
  destruct ext; [reflexivity|].
  rewrite ends_with_cons, String.eqb_refl. reflexivity.
Qed.

(** Two suffixes of one string: one is a suffix of the other. *)
Lemma ends_with_both e1 e2 l :
  Py.ends_with e1 l = true -> Py.ends_with e2 l = true ->
  Py.ends_with e1 e2 = true \/ Py.ends_with e2 e1 = true.
Proof.
  induction l as [|c l IH].
  - rewrite !ends_with_nil, !String.eqb_eq. intros <- <-. now left.
  - rewrite !ends_with_cons. intros H1 H2.
    destruct (String.eqb (String c l) e1) eqn:E1.
    + apply String.eqb_eq in E1. subst e1. right.
      rewrite ends_with_cons. exact H2.
    + destruct (String.eqb (String c l) e2) eqn:E2.
      * apply String.eqb_eq in E2. subst e2. left.
        rewrite ends_with_cons, E1. exact H1.
      * simpl in H1, H2. auto.
Qed.

Lemma ends_with_excl e1 e2 l :
  Py.ends_with e1 e2 = false -> Py.ends_with e2 e1 = false ->
  Py.ends_with e1 l = true -> Py.ends_with e2 l = false.
Proof.
  intros N1 N2 H1. destruct (Py.ends_with e2 l) eqn:H2; [|reflexivity].
  destruct (ends_with_both _ _ _ H1 H2); congruence.
Qed.

(** ** score_url *)

Lemma add_keywords_shift table l : forall score,
  add_keywords table l score = score + add_keywords table l 0.
Proof.
  unfold add_keywords. induction table as [|[kw pts] table IH]; intros score; simpl.
  - lia.
  - rewrite IH. rewrite (IH (if Py.contains kw l then 0 + pts else 0)).
    destruct (Py.contains kw l); lia.
Qed.

Lemma add_raster_shift l score : add_raster l score = score + add_raster l 0.
Proof.
  unfold add_raster. simpl.
  repeat match goal with |- context [if ?b then _ else _] => destruct b end; lia.
Qed.

Lemma add_svg_shift l score : add_svg l score = score + add_svg l 0.
Proof. unfold add_svg. destruct (Py.ends_with ".svg" l); lia. Qed.

Lemma add_size_shift sizes l : forall score,
  add_size sizes l score = score + add_size sizes l 0.
Proof.
  induction sizes as [|sz sizes IH]; intros score; simpl; [lia|].
  destruct (Py.contains sz l); [lia|apply IH].
Qed.

(** The score is the sum of its five groups. *)
Lemma score_url_sum url :
  score_url url =
    add_keywords KEYWORD_BONUS (Py.lower url) 0
    + add_keywords KEYWORD_PENALTY (Py.lower url) 0
    + add_keywords HOSTING_BONUS (Py.lower url) 0
    + format_bonus (Py.lower url)
    + add_size SIZE_HINTS (Py.lower url) 0.
Proof.
  unfold score_url, format_bonus. cbv zeta.
  rewrite add_size_shift, add_svg_shift, add_raster_shift.
  rewrite (add_keywords_shift HOSTING_BONUS), (add_keywords_shift KEYWORD_PENALTY).
  rewrite (add_svg_shift _ (add_raster _ 0)). lia.
Qed.

Lemma format_bonus_table l :
  format_bonus l =
    if Py.ends_with ".png" l then 14
    else if Py.ends_with ".jpg" l then 13
    else if Py.ends_with ".jpeg" l then 12
    else if Py.ends_with ".webp" l then 11
    else if Py.ends_with ".svg" l then 5
    else 0.
Proof.
  unfold format_bonus, add_svg, add_raster. simpl.
  destruct (Py.ends_with ".png" l) eqn:Hpng.
  - rewrite (ends_with_excl ".png" ".jpg"), (ends_with_excl ".png" ".jpeg"),
      (ends_with_excl ".png" ".webp"), (ends_with_excl ".png" ".svg");
      auto.
  - destruct (Py.ends_with ".jpg" l) eqn:Hjpg.
    + rewrite (ends_with_excl ".jpg" ".jpeg"), (ends_with_excl ".jpg" ".webp"),
        (ends_with_excl ".jpg" ".svg"); auto.
    + destruct (Py.ends_with ".jpeg" l) eqn:Hjpeg.
      * rewrite (ends_with_excl ".jpeg" ".webp"), (ends_with_excl ".jpeg" ".svg");
          auto.
      * destruct (Py.ends_with ".webp" l) eqn:Hwebp.
        -- rewrite (ends_with_excl ".webp" ".svg"); auto.
        -- destruct (Py.ends_with ".svg" l); reflexivity.
Qed.

Example score_cyber_badge_png :
  score_url "https://example.org/page/cyber-badge.png" = 10 + 8 + 14.
Proof. reflexivity. Qed.

Example score_logo_background_png :
  score_url "https://example.org/page/logo-background.png" = -12 - 15 + 14.
Proof. reflexivity. Qed.

Example score_size_hint :
  score_url "https://cdn.x/Badge-1024x2048.WEBP" = 8 + 2 + 11 + 16.
Proof. reflexivity. Qed.

(** C1 (as amended).  The format bonus is fixed by the extension of the
    lowercased URL: .png 14, .jpg 13, .jpeg 12, .webp 11 (the earlier an
    extension is declared in RASTER_PREF, the larger its bonus), .svg 5, and
    nothing otherwise; it is one of the five summands of the score. *)
Theorem format_bonus_by_extension (url : string) :
  let l := Py.lower url in
  score_url url =
    add_keywords KEYWORD_BONUS l 0 + add_keywords KEYWORD_PENALTY l 0
    + add_keywords HOSTING_BONUS l 0 + format_bonus l + add_size SIZE_HINTS l 0
  /\ format_bonus l =
       (if Py.ends_with ".png" l then 14
        else if Py.ends_with ".jpg" l then 13
        else if Py.ends_with ".jpeg" l then 12
        else if Py.ends_with ".webp" l then 11
        else if Py.ends_with ".svg" l then 5
        else 0).
Proof. split; [apply score_url_sum|apply format_bonus_table]. Qed.

(** C1 as stated fails: a URL ending in .webp gets the smallest raster
    bonus, one ending in .png the largest. *)
Lemma webp_bonus_is_smallest :
  format_bonus (Py.lower "https://example.org/a.webp") = 11
  /\ format_bonus (Py.lower "https://example.org/a.jpeg") = 12
  /\ format_bonus (Py.lower "https://example.org/a.jpg") = 13
  /\ format_bonus (Py.lower "https://example.org/a.png") = 14
  /\ ~ (forall u v,
          Py.ends_with ".webp" (Py.lower u) = true ->
          is_raster_url v = true ->
          format_bonus (Py.lower v) <= format_bonus (Py.lower u)).
Proof.
  repeat split; try reflexivity.
  intros H.
  specialize (H "https://example.org/a.webp" "https://example.org/a.png"
                eq_refl eq_refl).
  vm_compute in H. apply H. reflexivity.
Qed.

(** C7.  The score depends on the URL only through its lowercased form: two
    URLs that differ only in letter case have the same score. *)
Theorem score_url_case_insensitive (u v : string) :
  same_modulo_case u v = true -> score_url u = score_url v.
Proof.
  intros H. unfold score_url.
  now rewrite (same_modulo_case_lower _ _ H).
Qed.

Lemma score_url_case_insensitive_witness :
  same_modulo_case "https://CDN.x.org/Cyber-Badge.PNG"
                   "https://cdn.x.org/cyber-badge.png" = true
  /\ score_url "https://CDN.x.org/Cyber-Badge.PNG"
     = score_url "https://cdn.x.org/cyber-badge.png".
Proof.
  split; [reflexivity|].
  apply (score_url_case_insensitive "https://CDN.x.org/Cyber-Badge.PNG"
           "https://cdn.x.org/cyber-badge.png").
  reflexivity.
Defined.

(** C10.  A URL whose lowercased form contains "cybersecurity" collects the
    "cybersecurity" bonus and the "cyber" bonus, 22 in all, next to the
    other keyword bonuses and the other groups of the score. *)
Theorem cybersecurity_counts_twice (url : string) :
  Py.contains "cybersecurity" (Py.lower url) = true ->
  let l := Py.lower url in
  add_keywords KEYWORD_BONUS l 0
    = 12 + 10 + add_keywords [("badge", 8); ("merit", 6); ("emblem", 6)] l 0
  /\ score_url url =
       22 + add_keywords [("badge", 8); ("merit", 6); ("emblem", 6)] l 0
       + add_keywords KEYWORD_PENALTY l 0 + add_keywords HOSTING_BONUS l 0
       + format_bonus l + add_size SIZE_HINTS l 0.
Proof.
  intros H l.
  assert (Hc : Py.contains "cyber" l = true)
    by (apply (contains_app "cyber" "security"); exact H).
  assert (Hk : add_keywords KEYWORD_BONUS l 0
               = 12 + 10 + add_keywords [("badge", 8); ("merit", 6); ("emblem", 6)] l 0).
  { unfold KEYWORD_BONUS, add_keywords. cbn [fold_left fst snd].
    fold l in H. rewrite H, Hc.
    repeat match goal with |- context [if ?b then _ else _] => destruct b end; lia. }
  split; [exact Hk|].
  rewrite score_url_sum. fold l. rewrite Hk. lia.
Qed.

Lemma cybersecurity_counts_twice_witness :
  score_url "https://www.scouting.org/cybersecurity.png" = 22 + 1 + 14.
Proof.
  destruct (cybersecurity_counts_twice
              "https://www.scouting.org/cybersecurity.png" eq_refl) as [_ ->].
  reflexivity.
Defined.

(** ** Selection *)

Lemma lower_empty u : Py.lower u = "" -> u = "".
Proof. destruct u; [reflexivity|discriminate]. Qed.

Lemma ends_raster_truthy u :
  ends_raster (Py.lower u) = true -> Py.truthy (Some u) = true.
Proof.
  intros H. destruct u; [discriminate H|reflexivity].
Qed.

Lemma select_pass_none accept cands :
  Forall (passed_over accept) cands -> select_pass accept cands = None.
Proof.
  induction 1 as [|c cands [Hb|Ha] _ IH]; simpl; [reflexivity| |].
  - now rewrite Hb.
  - rewrite Ha. now destruct (is_blocked (Py.lower c)).
Qed.

Lemma select_pass_first accept pre u post :
  Forall (passed_over accept) pre ->
  is_blocked (Py.lower u) = false -> accept (Py.lower u) = true ->
  select_pass accept (pre ++ u :: post) = Some u.
Proof.
  intros Hpre Hb Ha.
  induction Hpre as [|c pre [Hcb|Hca] _ IH]; simpl.
  - now rewrite Hb, Ha.
  - now rewrite Hcb.
  - rewrite Hca. now destruct (is_blocked (Py.lower c)).
Qed.

Lemma select_pass_Some accept cands u :
  select_pass accept cands = Some u ->
  exists pre post,
    cands = pre ++ u :: post /\ Forall (passed_over accept) pre
    /\ is_blocked (Py.lower u) = false /\ accept (Py.lower u) = true.
Proof.
  induction cands as [|c cands IH]; simpl; [discriminate|].
  destruct (is_blocked (Py.lower c)) eqn:Hb.
  - intros H. destruct (IH H) as (pre & post & -> & Hp & ? & ?).
    exists (c :: pre), post. repeat split; auto.
    constructor; [now left|exact Hp].
  - destruct (accept (Py.lower c)) eqn:Ha.
    + intros [= ->]. exists [], cands. repeat split; auto.
    + intros H. destruct (IH H) as (pre & post & -> & Hp & ? & ?).
      exists (c :: pre), post. repeat split; auto.
      constructor; [now right|exact Hp].
Qed.

Lemma select_pass_truthy accept cands u :
  (forall lu, accept lu = true -> ends_raster lu = true) ->
  select_pass accept cands = Some u -> Py.truthy (Some u) = true.
Proof.
  intros Hacc H. destruct (select_pass_Some _ _ _ H) as (_ & _ & _ & _ & _ & Ha).
  apply ends_raster_truthy, Hacc, Ha.
Qed.

Lemma accept_cyber_raster lu : accept_cyber lu = true -> ends_raster lu = true.
Proof. unfold accept_cyber. intros H. now apply andb_true_iff in H as [_ ?]. Qed.

Lemma accept_badge_raster lu : accept_badge lu = true -> ends_raster lu = true.
Proof. unfold accept_badge. intros H. now apply andb_true_iff in H as [_ ?]. Qed.

(** The four passes as one cascade: a pass is consulted only when the
    earlier ones found nothing. *)
Lemma select_cases cands :
  select cands =
    match select_pass accept_cyber cands with
    | Some u => Some u
    | None =>
        match select_pass accept_badge cands with
        | Some u => Some u
        | None =>
            match select_pass accept_raster cands with
            | Some u => Some u
            | None => Py.first cands
            end
        end
    end.
Proof.
  unfold select. cbv zeta.
  destruct (select_pass accept_cyber cands) as [u1|] eqn:H1.
  { pose proof (select_pass_truthy _ _ _ accept_cyber_raster H1) as Ht.
    unfold Py.truthy in *. now repeat (rewrite Ht; cbn [negb]). }
  destruct (select_pass accept_badge cands) as [u2|] eqn:H2.
  { pose proof (select_pass_truthy _ _ _ accept_badge_raster H2) as Ht.
    unfold Py.truthy in *. cbn [negb]. now repeat (rewrite Ht; cbn [negb]). }
  destruct (select_pass accept_raster cands) as [u3|] eqn:H3.
  { pose proof (select_pass_truthy accept_raster _ _ (fun _ H => H) H3) as Ht.
    unfold Py.truthy in *. cbn [negb]. now repeat (rewrite Ht; cbn [negb]). }
  cbn [Py.truthy negb].
  destruct cands as [|c cands]; [reflexivity|]. cbn [Py.first head].
  destruct (String.eqb c ""); reflexivity.
Qed.

(** The first element of a list with a property, and what precedes it. *)
Lemma first_split {A} (p : A -> bool) (l : list A) :
  Exists (fun x => p x = true) l ->
  exists pre x post,
    l = pre ++ x :: post /\ Forall (fun y => p y = false) pre /\ p x = true.
Proof.
  induction l as [|a l IH]; intros H; [inversion H|].
  destruct (p a) eqn:Hp.
  - exists [], a, l. repeat split; auto.
  - assert (Hl : Exists (fun x => p x = true) l)
      by (inversion H; subst; [congruence|assumption]).
    destruct (IH Hl) as (pre & x & post & -> & Hpre & Hx).
    exists (a :: pre), x, post. repeat split; auto.
Qed.

Lemma badge_candidate_spec u :
  badge_candidate u = true <->
  is_blocked (Py.lower u) = false /\ accept_badge (Py.lower u) = true.
Proof.
  unfold badge_candidate, accept_badge. cbv zeta.
  destruct (is_blocked (Py.lower u)); simpl; intuition congruence.
Qed.

Lemma not_badge_passed_over u :
  badge_candidate u = false -> passed_over accept_badge u.
Proof.
  unfold passed_over. intros H.
  destruct (is_blocked (Py.lower u)) eqn:Hb; [now left|right].
  destruct (accept_badge (Py.lower u)) eqn:Ha; [|reflexivity].
  assert (badge_candidate u = true) by (apply badge_candidate_spec; auto).
  congruence.
Qed.

Lemma no_cyber_passed_over u :
  Py.contains "cyber" (Py.lower u) = false -> passed_over accept_cyber u.
Proof. intros H. right. unfold accept_cyber. now rewrite H. Qed.

(** C2.  Selection is the cascade of the three blocklist-filtered passes
    and the fallback to the first candidate, each consulted only when the
    earlier ones found nothing.  In particular, when no candidate's
    lowercased URL contains "cyber" and some candidate is a non-blocked
    raster URL containing "badge" or "merit", the first pass finds nothing
    and selection returns the first such candidate of the list. *)
Theorem select_falls_to_badge_pass (cands : list string) :
  select cands =
    match select_pass accept_cyber cands with
    | Some u => Some u
    | None =>
        match select_pass accept_badge cands with
        | Some u => Some u
        | None =>
            match select_pass accept_raster cands with
            | Some u => Some u
            | None => Py.first cands
            end
        end
    end
  /\ (Forall (fun c => Py.contains "cyber" (Py.lower c) = false) cands ->
      Exists (fun c => badge_candidate c = true) cands ->
      exists pre u post,
        cands = pre ++ u :: post
        /\ Forall (fun c => badge_candidate c = false) pre
        /\ badge_candidate u = true
        /\ select_pass accept_cyber cands = None
        /\ select cands = Some u).
Proof.
  split; [apply select_cases|].
  intros Hcy Hex.
  destruct (first_split badge_candidate cands Hex) as (pre & u & post & E & Hpre & Hu).
  exists pre, u, post.
  assert (H1 : select_pass accept_cyber cands = None).
  { apply select_pass_none. eapply Forall_impl; [exact Hcy|].
    intros c Hc. now apply no_cyber_passed_over. }
  apply badge_candidate_spec in Hu as Hu'. destruct Hu' as [Hb Ha].
  assert (H2 : select_pass accept_badge cands = Some u).
  { rewrite E. apply select_pass_first; auto.
    eapply Forall_impl; [exact Hpre|].
    intros c Hc. now apply not_badge_passed_over. }
  repeat split; auto.
  rewrite select_cases, H1, H2. reflexivity.
Qed.

Lemma select_falls_to_badge_pass_witness :
  select ["https://x.org/photo-2048.png"; "https://x.org/logo-badge.png";
          "https://x.org/img/Merit.JPG"; "https://x.org/badge.png"]
  = Some "https://x.org/img/Merit.JPG".
Proof.
  destruct (select_falls_to_badge_pass
              ["https://x.org/photo-2048.png"; "https://x.org/logo-badge.png";
               "https://x.org/img/Merit.JPG"; "https://x.org/badge.png"])
    as [_ H].
  destruct H as (pre & u & post & _ & _ & _ & _ & H).
  - repeat constructor.
  - do 2 apply Exists_cons_tl. apply Exists_cons_hd. reflexivity.
  - rewrite H. vm_compute in H. exact (eq_sym H).
Defined.

(** The third pass alone would have returned another candidate there. *)
Example third_pass_differs :
  select_pass accept_raster
    ["https://x.org/photo-2048.png"; "https://x.org/logo-badge.png";
     "https://x.org/img/Merit.JPG"; "https://x.org/badge.png"]
  = Some "https://x.org/photo-2048.png".
Proof. reflexivity. Qed.

Lemma select_pass_None_inv accept cands :
  select_pass accept cands = None -> Forall (passed_over accept) cands.
Proof.
  induction cands as [|c cands IH]; simpl; [constructor|].
  destruct (is_blocked (Py.lower c)) eqn:Hb.
  - intros H. constructor; [now left|auto].
  - destruct (accept (Py.lower c)) eqn:Ha; [discriminate|].
    intros H. constructor; [now right|auto].
Qed.

Lemma is_raster_url_lower u : is_raster_url u = ends_raster (Py.lower u).
Proof. reflexivity. Qed.

(** A URL ending in .svg does not end in a raster extension. *)
Lemma svg_not_raster l :
  Py.ends_with ".svg" l = true -> ends_raster l = false.
Proof.
  intros H. unfold ends_raster, Py.any, RASTER_PREF. cbn [existsb].
  rewrite (ends_with_excl ".svg" ".png"), (ends_with_excl ".svg" ".jpg"),
    (ends_with_excl ".svg" ".jpeg"), (ends_with_excl ".svg" ".webp"); auto.
Qed.

(** ** main: fetching, substitution and failure *)

Section MainProps.

Variable env : environment.
Variable pil : PIL.library.

Local Abbreviation ext := (ext_of env).
Local Abbreviation saved := (saved env).
Local Abbreviation save := (save_source env).
Local Abbreviation switch := (switch_to_raster env).
Local Abbreviation acquire := (acquire_source env).
Local Abbreviation icon := (write_icon pil).
Local Abbreviation run_main := (main env pil).

Lemma save_source_ok u r w :
  http_get env u DOWNLOAD_HEADERS = Some r -> status_ok r = true ->
  exists w',
    save u w = (inr (saved u r), w')
    /\ files w' = <[out_src_of (ext u) := content r]> (files w).
Proof.
  intros Hg Hok. eexists. unfold save_source, download_bytes, bind, emit,
    write_file, print, ret. cbv beta iota zeta. rewrite Hg.
  cbv beta iota zeta. rewrite Hok. split; reflexivity.
Qed.

Lemma print_files line w :
  exists w', print line w = (inr tt, w') /\ files w' = files w.
Proof. eexists. split; reflexivity. Qed.

Lemma switch_none cands cur w :
  Forall (fun u => is_raster_url u = false) cands ->
  switch cands cur w = (inr cur, w).
Proof.
  induction 1 as [|c cands Hc _ IH]; simpl; [reflexivity|].
  now rewrite Hc.
Qed.

Lemma switch_first pre r post cur rr w :
  Forall (fun u => is_raster_url u = false) pre ->
  is_raster_url r = true ->
  http_get env r DOWNLOAD_HEADERS = Some rr -> status_ok rr = true ->
  exists w',
    switch (pre ++ r :: post) cur w = (inr (saved r rr), w')
    /\ files w' = <[out_src_of (ext r) := content rr]> (files w).
Proof.
  intros Hpre Hr Hg Hok.
  induction Hpre as [|c pre Hc _ IH]; simpl.
  - rewrite Hr.
    destruct (print_files (String.append "Switching to raster candidate: " r) w)
      as (w1 & E1 & F1).
    destruct (save_source_ok r rr w1 Hg Hok) as (w2 & E2 & F2).
    exists w2. unfold bind. rewrite E1, E2, F2, F1. split; reflexivity.
  - now rewrite Hc.
Qed.

Lemma for_each_print_files (f : string -> string) xs : forall w,
  exists w', for_each xs (fun u => print (f u)) w = (inr tt, w')
             /\ files w' = files w.
Proof.
  induction xs as [|x xs IH]; intros w; simpl.
  - exists w. split; reflexivity.
  - destruct (print_files (f x) w) as (w1 & E1 & F1).
    destruct (IH w1) as (w2 & E2 & F2).
    exists w2. unfold bind. rewrite E1, E2. split; [reflexivity|congruence].
Qed.

Lemma announce_files cands w :
  exists w', announce cands w = (inr tt, w') /\ files w' = files w.
Proof.
  unfold announce.
  destruct (print_files "Candidates (top 8):" w) as (w1 & E1 & F1).
  destruct (for_each_print_files (String.append " - ") (firstn 8 cands) w1)
    as (w2 & E2 & F2).
  exists w2. unfold bind. rewrite E1, E2. split; [reflexivity|congruence].
Qed.

(** With a page fetched and candidates found, main is the acquisition of
    the source followed by the icon stage. *)
Lemma main_reaches_selection w0 page cands :
  http_get env PAGE_URL HEADERS = Some page ->
  find_candidate_image_urls (urljoin env) (parse_html env (text page)) PAGE_URL = cands ->
  cands <> [] ->
  exists w1,
    files w1 = files w0
    /\ run_main w0 = (let* cur := acquire cands in icon cur) w1.
Proof.
  intros Hg Hc Hne. unfold main, get_page_text.
  unfold bind at 1. cbv beta iota zeta.
  unfold print at 1, emit at 1. cbv beta iota zeta.
  unfold bind at 1, bind at 1, emit at 1. cbv beta iota zeta.
  rewrite Hg. unfold ret at 1. cbv beta iota zeta. rewrite Hc.
  destruct cands as [|c cands]; [congruence|].
  unfold bind at 1.
  destruct (announce_files (c :: cands)
              {| files := files {| files := files w0;
                                   trace := trace w0 ++ [Printed (String.append "Fetching page: " PAGE_URL)] |};
                 trace := trace {| files := files w0;
                                   trace := trace w0 ++ [Printed (String.append "Fetching page: " PAGE_URL)] |}
                          ++ [Requested PAGE_URL] |})
    as (w1 & E1 & F1).
  rewrite E1. exists w1. split; [exact F1|reflexivity].
Qed.

Lemma select_nonempty cands chosen : select cands = Some chosen -> cands <> [].
Proof. intros H ->. discriminate H. Qed.

(** Lines 182-194 for a chosen URL that downloads. *)
Lemma acquire_chosen cands chosen r0 w :
  select cands = Some chosen ->
  http_get env chosen DOWNLOAD_HEADERS = Some r0 -> status_ok r0 = true ->
  exists w1,
    files w1 = <[out_src_of (ext chosen) := content r0]> (files w)
    /\ acquire cands w =
         (if String.eqb (Py.lower (ext chosen)) ".svg"
          then switch cands (saved chosen r0) else ret (saved chosen r0)) w1.
Proof.
  intros Hs Hg Hok. unfold acquire_source. rewrite Hs.
  unfold bind at 1, ret at 1. cbv beta iota zeta.
  destruct (print_files (String.append "Chosen image: " chosen) w)
    as (w0 & E0 & F0).
  unfold bind at 1. rewrite E0.
  destruct (save_source_ok chosen r0 w0 Hg Hok) as (w1 & E1 & F1).
  unfold bind at 1. rewrite E1. exists w1. split; [congruence|reflexivity].
Qed.

(** C3 (as amended).  When the extension of the chosen URL is ".svg" and
    both downloads succeed, main goes on to the decode and transform
    stage with the first raster URL of the ranked list and its bytes,
    which it has written under the stem plus that URL's own extension,
    on top of the file system in which the vector file was written; with
    no raster URL in the list the vector bytes go on unchanged. *)
Theorem raster_replaces_vector w0 page cands chosen r0 :
  http_get env PAGE_URL HEADERS = Some page ->
  find_candidate_image_urls (urljoin env) (parse_html env (text page)) PAGE_URL = cands ->
  select cands = Some chosen ->
  Py.lower (ext chosen) = ".svg" ->
  http_get env chosen DOWNLOAD_HEADERS = Some r0 -> status_ok r0 = true ->
  (forall pre r post rr,
      cands = pre ++ r :: post ->
      Forall (fun u => is_raster_url u = false) pre ->
      is_raster_url r = true ->
      http_get env r DOWNLOAD_HEADERS = Some rr -> status_ok rr = true ->
      exists w,
        run_main w0 = icon (saved r rr) w
        /\ files w = <[out_src_of (ext r) := content rr]>
                       (<[out_src_of (ext chosen) := content r0]> (files w0)))
  /\ (Forall (fun u => is_raster_url u = false) cands ->
      exists w,
        run_main w0 = icon (saved chosen r0) w
        /\ files w = <[out_src_of (ext chosen) := content r0]> (files w0)).
Proof.
  intros Hg Hc Hs Hext Hd Hok.
  destruct (main_reaches_selection w0 page cands Hg Hc (select_nonempty _ _ Hs))
    as (w1 & F1 & Em).
  destruct (acquire_chosen cands chosen r0 w1 Hs Hd Hok) as (w2 & F2 & Ea).
  rewrite Hext in Ea. cbn [String.eqb Ascii.eqb Bool.eqb] in Ea.
  split.
  - intros pre r post rr E Hpre Hr Hdr Hokr.
    destruct (switch_first pre r post (saved chosen r0) rr w2 Hpre Hr Hdr Hokr)
      as (w3 & E3 & F3).
    exists w3. split.
    + rewrite Em. unfold bind at 1. rewrite Ea, E, E3. reflexivity.
    + rewrite F3, F2, F1. reflexivity.
  - intros Hnone. exists w2. split.
    + rewrite Em. unfold bind at 1. rewrite Ea, (switch_none _ _ _ Hnone).
      reflexivity.
    + rewrite F2, F1. reflexivity.
Qed.

(** C8.  With no candidate found, main ends in [SystemExit] with its
    message and status 1, having only logged and requested the page: no
    image was requested and no file written. *)
Theorem no_candidates_is_fatal w0 page :
  http_get env PAGE_URL HEADERS = Some page ->
  find_candidate_image_urls (urljoin env) (parse_html env (text page)) PAGE_URL = [] ->
  run_main w0 =
    (inl (SystemExit "No candidate images found on page"),
     {| files := files w0;
        trace := (trace w0 ++ [Printed (String.append "Fetching page: " PAGE_URL)])
                 ++ [Requested PAGE_URL] |})
  /\ exit_status (fst (run_main w0)) = 1.
Proof.
  intros Hg Hc.
  assert (E : run_main w0 =
    (inl (SystemExit "No candidate images found on page"),
     {| files := files w0;
        trace := (trace w0 ++ [Printed (String.append "Fetching page: " PAGE_URL)])
                 ++ [Requested PAGE_URL] |})).
  { unfold main, get_page_text.
    unfold bind at 1. cbv beta iota zeta.
    unfold print at 1, emit at 1. cbv beta iota zeta.
    unfold bind at 1, bind at 1, emit at 1. cbv beta iota zeta.
    rewrite Hg. unfold ret at 1. cbv beta iota zeta. rewrite Hc.
    reflexivity. }
  split; [exact E|]. rewrite E. reflexivity.
Qed.

(** C9.  When the chosen URL ends in ".svg" it came from the last
    fallback: the three raster passes found nothing, so every raster
    candidate carries a blocked keyword; the substitution scan, when the
    extension test lets it run, still takes the first raster candidate. *)
Theorem substitution_ignores_blocklist cands chosen :
  select cands = Some chosen ->
  Py.ends_with ".svg" (Py.lower chosen) = true ->
  (select_pass accept_cyber cands = None
   /\ select_pass accept_badge cands = None
   /\ select_pass accept_raster cands = None
   /\ Py.first cands = Some chosen)
  /\ (forall u, In u cands -> is_raster_url u = true ->
                is_blocked (Py.lower u) = true)
  /\ (forall w pre r post r0 rr,
        cands = pre ++ r :: post ->
        Forall (fun u => is_raster_url u = false) pre ->
        is_raster_url r = true ->
        Py.lower (ext chosen) = ".svg" ->
        http_get env chosen DOWNLOAD_HEADERS = Some r0 -> status_ok r0 = true ->
        http_get env r DOWNLOAD_HEADERS = Some rr -> status_ok rr = true ->
        is_blocked (Py.lower r) = true
        /\ exists w', acquire cands w = (inr (saved r rr), w')).
Proof.
  intros Hs Hsvg.
  pose proof (svg_not_raster _ Hsvg) as Hnr.
  assert (Hno : forall accept,
             (forall lu, accept lu = true -> ends_raster lu = true) ->
             select_pass accept cands <> Some chosen).
  { intros accept Hacc H.
    destruct (select_pass_Some _ _ _ H) as (_ & _ & _ & _ & _ & Ha).
    apply Hacc in Ha. congruence. }
  rewrite select_cases in Hs.
  destruct (select_pass accept_cyber cands) as [u1|] eqn:H1.
  { exfalso. apply (Hno accept_cyber accept_cyber_raster). congruence. }
  destruct (select_pass accept_badge cands) as [u2|] eqn:H2.
  { exfalso. apply (Hno accept_badge accept_badge_raster). congruence. }
  destruct (select_pass accept_raster cands) as [u3|] eqn:H3.
  { exfalso. apply (Hno accept_raster (fun _ H => H)). congruence. }
  assert (Hall : forall u, In u cands -> is_raster_url u = true ->
                           is_blocked (Py.lower u) = true).
  { intros u Hin Hr.
    pose proof (select_pass_None_inv _ _ H3) as Hf.
    rewrite Forall_forall in Hf. apply list_elem_of_In in Hin.
    destruct (Hf u Hin) as [Hb|Ha]; [exact Hb|].
    unfold accept_raster in Ha. rewrite is_raster_url_lower in Hr. congruence. }
  split; [auto|]. split; [exact Hall|].
  intros w pre r post r0 rr E Hpre Hr Hext Hd Hok Hdr Hokr.
  split.
  - apply Hall; [rewrite E; apply in_elt|exact Hr].
  - assert (Hsel : select cands = Some chosen)
      by (rewrite select_cases, H1, H2, H3; exact Hs).
    destruct (acquire_chosen cands chosen r0 w Hsel Hd Hok) as (w2 & F2 & Ea).
    rewrite Hext in Ea. cbn [String.eqb Ascii.eqb Bool.eqb] in Ea.
    destruct (switch_first pre r post (saved chosen r0) rr w2 Hpre Hr Hdr Hokr)
      as (w3 & E3 & F3).
    exists w3. rewrite Ea, E, E3. reflexivity.
Qed.

End MainProps.

Lemma raster_replaces_vector_witness :
  exists w,
    main (demo_env demo_page) demo_pil world0
    = write_icon demo_pil
        (Source "https://x.org/logo.png" PNG_BYTES ".png" PNG_PATH) w
    /\ files w = <[PNG_PATH := PNG_BYTES]> (<[SVG_PATH := SVG_BYTES]> ∅).
Proof.
  destruct (raster_replaces_vector (demo_env demo_page) demo_pil world0
              (Response true "<html>" []) demo_candidates
              "https://x.org/icon.svg" (Response true "" SVG_BYTES))
    as [H _]; try reflexivity.
  apply (H ["https://x.org/icon.svg"] "https://x.org/logo.png" []
           (Response true "" PNG_BYTES)); try reflexivity.
  repeat constructor.
Defined.

(** C3 as stated fails: after the substitution the vector file is still
    there under its own name with the vector bytes; the raster bytes went
    to another file. *)
Lemma vector_file_is_kept :
  let w := snd (main (demo_env demo_page) demo_pil world0) in
  fst (main (demo_env demo_page) demo_pil world0) = inr tt
  /\ files w !! SVG_PATH = Some SVG_BYTES
  /\ files w !! PNG_PATH = Some PNG_BYTES
  /\ files w !! SVG_PATH <> Some PNG_BYTES
  /\ files w !! FAVICON_PATH = Some PNG_BYTES.
Proof.
  vm_compute. repeat split; try reflexivity. discriminate.
Qed.

Lemma no_candidates_is_fatal_witness :
  main (demo_env []) demo_pil world0 =
    (inl (SystemExit "No candidate images found on page"),
     World ∅ [Printed (String.append "Fetching page: " PAGE_URL);
              Requested PAGE_URL])
  /\ exit_status (fst (main (demo_env []) demo_pil world0)) = 1.
Proof.
  exact (no_candidates_is_fatal (demo_env []) demo_pil world0
           (Response true "<html>" []) eq_refl eq_refl).
Defined.

Lemma substitution_ignores_blocklist_witness :
  is_blocked (Py.lower "https://x.org/logo.png") = true
  /\ exists w',
       acquire_source (demo_env demo_page) demo_candidates world0
       = (inr (Source "https://x.org/logo.png" PNG_BYTES ".png" PNG_PATH), w').
Proof.
  destruct (substitution_ignores_blocklist (demo_env demo_page)
              demo_candidates "https://x.org/icon.svg" eq_refl eq_refl)
    as (_ & _ & H).
  apply (H world0 ["https://x.org/icon.svg"] "https://x.org/logo.png" []
           (Response true "" SVG_BYTES) (Response true "" PNG_BYTES));
    try reflexivity.
  repeat constructor.
Defined.

(** ** Discovery: uniquify, filter, sort *)

Lemma mem_In y l : mem y l = true <-> In y l.
Proof.
  unfold mem. rewrite existsb_exists. split.
  - intros (x & Hin & E). apply String.eqb_eq in E. now subst.
  - intros H. exists y. split; [exact H|apply String.eqb_refl].
Qed.

Lemma mem_snoc y acc u : mem y (acc ++ [u]) = mem y acc || String.eqb y u.
Proof. unfold mem. rewrite existsb_app. simpl. now rewrite orb_false_r. Qed.

Lemma filter_not_mem_snoc acc u l :
  List.filter (fun y => negb (mem y (acc ++ [u]))) l
  = List.filter (fun y => negb (mem y acc))
      (List.filter (fun y => negb (String.eqb y u)) l).
Proof.
  induction l as [|x l IH]; simpl; [reflexivity|].
  rewrite mem_snoc, negb_orb.
  destruct (String.eqb x u); simpl.
  - now rewrite andb_false_r.
  - rewrite andb_true_r. destruct (mem x acc); simpl; now rewrite IH.
Qed.

Lemma filter_not_mem_absorb acc u l :
  mem u acc = true ->
  List.filter (fun y => negb (mem y acc))
    (List.filter (fun y => negb (String.eqb y u)) l)
  = List.filter (fun y => negb (mem y acc)) l.
Proof.
  intros Hu. induction l as [|x l IH]; simpl; [reflexivity|].
  destruct (String.eqb x u) eqn:E; simpl.
  - apply String.eqb_eq in E. subst x. now rewrite Hu.
  - destruct (mem x acc); simpl; now rewrite IH.
Qed.

(** The loop with its [seen] set, started from any state in which [seen]
    holds the strings of [dedup]. *)
Lemma dedup_fold urls : forall (acc : list string) (seen : gset string),
  (forall x, x ∈ seen <-> In x acc) ->
  fst (fold_left dedup_step urls (acc, seen))
  = acc ++ List.filter (fun y => negb (mem y acc))
             (first_seen (List.filter has_img_ext urls)).
Proof.
  induction urls as [|u urls IH]; intros acc seen Hinv.
  - simpl. now rewrite app_nil_r.
  - cbn [fold_left List.filter]. unfold dedup_step at 2.
    destruct (has_img_ext u) eqn:He; cbn [negb].
    + destruct (decide (u ∈ seen)) as [Hin|Hnin].
      * rewrite (IH acc seen Hinv). cbn [first_seen List.filter].
        assert (Hm : mem u acc = true) by (apply mem_In, Hinv, Hin).
        rewrite Hm. cbn [negb]. now rewrite filter_not_mem_absorb.
      * rewrite (IH (acc ++ [u]) ({[u]} ∪ seen)).
        -- cbn [first_seen List.filter].
           assert (Hm : mem u acc = false).
           { destruct (mem u acc) eqn:E; [|reflexivity].
             exfalso. apply Hnin, Hinv, mem_In, E. }
           rewrite Hm. cbn [negb]. rewrite filter_not_mem_snoc.
           now rewrite <- app_assoc.
        -- intros x. rewrite elem_of_union, elem_of_singleton, in_app_iff, Hinv.
           simpl. intuition.
    + apply IH, Hinv.
Qed.

Lemma dedup_urls_first_seen urls :
  dedup_urls urls = first_seen (List.filter has_img_ext urls).
Proof.
  unfold dedup_urls. rewrite (dedup_fold urls [] ∅).
  - simpl. induction (first_seen _) as [|x l IH]; simpl; [reflexivity|].
    now rewrite IH.
  - intros x. split; [intros H; now apply not_elem_of_empty in H|intros []].
Qed.

Lemma first_seen_In x l : In x (first_seen l) <-> In x l.
Proof.
  induction l as [|a l IH]; simpl; [tauto|].
  rewrite filter_In, IH, negb_true_iff, String.eqb_neq.
  destruct (String.eqb_spec a x); intuition congruence.
Qed.

Lemma first_seen_NoDup l : NoDup (first_seen l).
Proof.
  apply NoDup_ListNoDup.
  induction l as [|a l IH]; simpl; [constructor|].
  constructor.
  - rewrite filter_In, negb_true_iff, String.eqb_neq. tauto.
  - now apply List.NoDup_filter.
Qed.

Lemma filter_not_mem_cons x l1 l :
  List.filter (fun y => negb (String.eqb y x))
    (List.filter (fun y => negb (mem y l1)) l)
  = List.filter (fun y => negb (mem y (x :: l1))) l.
Proof.
  unfold mem. induction l as [|y l IH]; simpl; [reflexivity|].
  destruct (String.eqb y x) eqn:E, (existsb (String.eqb y) l1);
    simpl; rewrite ?E; simpl; now rewrite IH.
Qed.

(** First-seen order: what a later segment adds comes after, less what the
    earlier segment already gave. *)
Lemma first_seen_app l1 l2 :
  first_seen (l1 ++ l2)
  = first_seen l1 ++ List.filter (fun y => negb (mem y l1)) (first_seen l2).
Proof.
  induction l1 as [|x l1 IH]; simpl.
  - induction (first_seen l2) as [|y l IHl]; simpl; [reflexivity|].
    now rewrite <- IHl.
  - rewrite IH, List.filter_app, filter_not_mem_cons. reflexivity.
Qed.

Lemma insert_desc_perm {A} (key : A -> Z) x l :
  Permutation (insert_desc key x l) (x :: l).
Proof.
  induction l as [|y l IH]; simpl; [reflexivity|].
  destruct (key x <? key y); [|reflexivity].
  rewrite IH. apply perm_swap.
Qed.

Lemma sort_desc_perm {A} (key : A -> Z) l : Permutation (sort_desc key l) l.
Proof.
  induction l as [|x l IH]; simpl; [reflexivity|].
  rewrite insert_desc_perm. now constructor.
Qed.

Lemma insert_desc_sorted {A} (key : A -> Z) x l :
  StronglySorted (fun a b => key b <= key a) l ->
  StronglySorted (fun a b => key b <= key a) (insert_desc key x l).
Proof.
  induction 1 as [|y l Hs IH Hy]; simpl.
  - repeat constructor.
  - destruct (Z.ltb_spec (key x) (key y)) as [Hlt|Hge].
    + constructor; [exact IH|].
      rewrite Forall_forall. intros z Hz.
      apply list_elem_of_In in Hz.
      apply (Permutation_in _ (insert_desc_perm key x l)) in Hz.
      destruct Hz as [<-|Hz]; [lia|].
      rewrite Forall_forall in Hy. apply Hy, list_elem_of_In, Hz.
    + constructor; [now constructor|].
      constructor; [exact Hge|].
      eapply Forall_impl; [exact Hy|]. simpl. intros z Hz. lia.
Qed.

Lemma sort_desc_sorted {A} (key : A -> Z) l :
  StronglySorted (fun a b => key b <= key a) (sort_desc key l).
Proof.
  induction l as [|x l IH]; simpl; [constructor|].
  now apply insert_desc_sorted.
Qed.

(** Stability: among the elements of one key the input order is kept. *)
Lemma insert_desc_stable {A} (key : A -> Z) k x l :
  List.filter (fun a => key a =? k) (insert_desc key x l)
  = List.filter (fun a => key a =? k) (x :: l).
Proof.
  induction l as [|y l IH]; [reflexivity|].
  cbn [insert_desc].
  destruct (Z.ltb_spec (key x) (key y)) as [Hlt|Hge]; [|reflexivity].
  cbn [List.filter] in *. rewrite IH.
  destruct (Z.eqb_spec (key x) k), (Z.eqb_spec (key y) k); try reflexivity.
  lia.
Qed.

Lemma sort_desc_stable {A} (key : A -> Z) k l :
  List.filter (fun a => key a =? k) (sort_desc key l)
  = List.filter (fun a => key a =? k) l.
Proof.
  induction l as [|x l IH]; [reflexivity|].
  cbn [sort_desc]. rewrite insert_desc_stable. cbn [List.filter].
  now rewrite IH.
Qed.

(** C4.  The discovery output holds exactly the input URLs that end in an
    image extension, each once; before sorting they stand in first-seen
    order; the output is that list sorted by descending score, URLs of
    equal score keeping their first-seen order. *)
Theorem discovery_output (urls : list string) :
  let out := rank_urls urls in
  Forall (fun u => has_img_ext u = true) out
  /\ NoDup out
  /\ (forall u, In u out <-> In u urls /\ has_img_ext u = true)
  /\ dedup_urls urls = first_seen (List.filter has_img_ext urls)
  /\ Permutation out (dedup_urls urls)
  /\ StronglySorted (fun a b => score_url b <= score_url a) out
  /\ (forall k, List.filter (fun u => score_url u =? k) out
                = List.filter (fun u => score_url u =? k) (dedup_urls urls)).
Proof.
  intros out. unfold out, rank_urls.
  pose proof (sort_desc_perm score_url (dedup_urls urls)) as Hp.
  assert (Hin : forall u, In u (sort_desc score_url (dedup_urls urls))
                          <-> In u urls /\ has_img_ext u = true).
  { intros u. split.
    - intros H. apply (Permutation_in _ Hp) in H.
      rewrite dedup_urls_first_seen, first_seen_In, filter_In in H. exact H.
    - intros H. apply (Permutation_in _ (Permutation_sym Hp)).
      rewrite dedup_urls_first_seen, first_seen_In, filter_In. exact H. }
  refine (conj _ (conj _ (conj Hin (conj _ (conj _ (conj _ _)))))).
  - rewrite Forall_forall. intros u Hu. apply list_elem_of_In, Hin in Hu. tauto.
  - apply NoDup_ListNoDup, (Permutation_NoDup (Permutation_sym Hp)).
    rewrite dedup_urls_first_seen. apply NoDup_ListNoDup, first_seen_NoDup.
  - apply dedup_urls_first_seen.
  - exact Hp.
  - apply sort_desc_sorted.
  - intros k. apply sort_desc_stable.
Qed.

Example discovery_output_example :
  rank_urls ["https://x.org/b.PNG"; "https://x.org/readme.txt";
             "https://x.org/a.png"; "https://x.org/cyber.svg";
             "https://x.org/b.PNG"; "https://x.org/a.png"]
  = ["https://x.org/cyber.svg"; "https://x.org/b.PNG"; "https://x.org/a.png"].
Proof. vm_compute. reflexivity. Qed.

(** ** parse_srcset *)

Lemma split_nonempty sep s : Py.split sep s <> [].
Proof.
  destruct s as [|c s]; simpl; [discriminate|].
  destruct (Ascii.eqb c sep); [discriminate|].
  destruct (Py.split sep s); discriminate.
Qed.

(** [s.split(" ")[0]] is the text before the first space. *)
Lemma split_space_first s :
  Py.first (Py.split " " s) = Some (before_space s).
Proof.
  induction s as [|c s IH]; simpl; [reflexivity|].
  destruct (Ascii.eqb c " "); [reflexivity|].
  destruct (Py.split " " s) as [|p ps]; [discriminate IH|].
  simpl in IH. injection IH as ->. reflexivity.
Qed.

Lemma srcset_url_before_space part :
  srcset_url part = before_space (Py.strip part).
Proof. unfold srcset_url. now rewrite split_space_first. Qed.

Lemma join_split sep s : join (String sep "") (Py.split sep s) = s.
Proof.
  induction s as [|c s IH]; simpl; [reflexivity|].
  destruct (Ascii.eqb_spec c sep) as [->|Hne].
  - pose proof (split_nonempty sep s) as Hn.
    destruct (Py.split sep s) as [|p ps]; [congruence|].
    change (String sep (join (String sep "") (p :: ps)) = String sep s).
    now rewrite IH.
  - pose proof (split_nonempty sep s) as Hn.
    destruct (Py.split sep s) as [|p ps]; [congruence|].
    rewrite <- IH. destruct ps as [|q ps]; reflexivity.
Qed.

Lemma split_parts_free sep s :
  Forall (fun part => has_char sep part = false) (Py.split sep s).
Proof.
  induction s as [|c s IH]; simpl; [repeat constructor|].
  destruct (Ascii.eqb c sep) eqn:E.
  - constructor; [reflexivity|exact IH].
  - destruct (Py.split sep s) as [|p ps]; [repeat constructor; simpl; now rewrite E|].
    apply Forall_cons in IH as [Hp Hps].
    constructor; [simpl; now rewrite E, Hp|exact Hps].
Qed.

(** An append loop that keeps the accepted images of a list. *)
Lemma fold_append_filter {A B} (f : A -> B) (keep : B -> bool) l : forall acc,
  fold_left (fun acc x => if keep (f x) then acc ++ [f x] else acc) l acc
  = acc ++ List.filter keep (List.map f l).
Proof.
  induction l as [|x l IH]; intros acc; simpl.
  - now rewrite app_nil_r.
  - rewrite IH. destruct (keep (f x)); [|reflexivity].
    now rewrite <- app_assoc.
Qed.

Lemma parse_srcset_filter_map s :
  parse_srcset s
  = List.filter (fun url => negb (String.eqb url ""))
      (List.map srcset_url (Py.split "," s)).
Proof.
  unfold parse_srcset.
  apply (fold_append_filter srcset_url (fun url => negb (String.eqb url ""))).
Qed.

Lemma rstrip_cons c s :
  Py.rstrip (String c s)
  = match Py.rstrip s with
    | EmptyString => if Py.is_space c then EmptyString else String c EmptyString
    | String a r => String c (String a r)
    end.
Proof. reflexivity. Qed.

Lemma lstrip_rstrip_comm s : Py.lstrip (Py.rstrip s) = Py.rstrip (Py.lstrip s).
Proof.
  induction s as [|c s IH]; [reflexivity|].
  rewrite rstrip_cons. cbn [Py.lstrip].
  destruct (Py.is_space c) eqn:Hc.
  - rewrite <- IH. destruct (Py.rstrip s); [reflexivity|].
    cbn [Py.lstrip]. now rewrite Hc.
  - rewrite rstrip_cons.
    destruct (Py.rstrip s); rewrite ?Hc; cbn [Py.lstrip]; now rewrite Hc.
Qed.

Lemma rstrip_empty_take s : Py.rstrip s = "" -> take_nonspace s = "".
Proof.
  destruct s as [|c s]; [reflexivity|].
  rewrite rstrip_cons. cbn [take_nonspace].
  destruct (Py.rstrip s); [|discriminate].
  now destruct (Py.is_space c).
Qed.

Lemma space_is_space c : Ascii.eqb c " " = true -> Py.is_space c = true.
Proof. intros H. apply Ascii.eqb_eq in H. now subst. Qed.

Lemma before_space_rstrip p :
  no_space (before_space (Py.rstrip p)) = true ->
  before_space (Py.rstrip p) = take_nonspace p.
Proof.
  induction p as [|c p IH]; [reflexivity|].
  rewrite rstrip_cons. cbn [take_nonspace].
  destruct (Py.rstrip p) as [|a r] eqn:Er.
  - destruct (Py.is_space c) eqn:Hc; [reflexivity|].
    cbn [before_space].
    destruct (Ascii.eqb c " ") eqn:E;
      [apply space_is_space in E; congruence|].
    intros _. now rewrite (rstrip_empty_take p Er).
  - cbn [before_space].
    destruct (Ascii.eqb c " ") eqn:E.
    + intros _. now rewrite (space_is_space c E).
    + cbn [no_space]. rewrite andb_true_iff, negb_true_iff.
      intros [Hc Hr]. rewrite Hc. f_equal. apply IH. exact Hr.
Qed.

(** Where the token holds no whitespace it is the first
    whitespace-delimited token. *)
Lemma srcset_url_first_token part :
  no_space (srcset_url part) = true -> srcset_url part = first_ws_token part.
Proof.
  rewrite srcset_url_before_space. unfold Py.strip, first_ws_token.
  rewrite lstrip_rstrip_comm. apply before_space_rstrip.
Qed.

(** C6 (as amended).  The parse splits on commas (the entries joined by
    commas give the attribute back, and no entry holds a comma) and returns
    in order, for each entry, the text of the whitespace-stripped entry
    before its first space character, leaving out empty ones; that text is
    the first whitespace-delimited token of the entry whenever it holds no
    whitespace character. *)
Theorem parse_srcset_tokens (srcset_value : string) :
  parse_srcset srcset_value
  = List.filter (fun url => negb (String.eqb url ""))
      (List.map (fun part => before_space (Py.strip part))
         (Py.split "," srcset_value))
  /\ join "," (Py.split "," srcset_value) = srcset_value
  /\ Forall (fun part => has_char "," part = false) (Py.split "," srcset_value)
  /\ (forall part,
        no_space (srcset_url part) = true ->
        srcset_url part = first_ws_token part).
Proof.
  refine (conj _ (conj _ (conj _ _))).
  - rewrite parse_srcset_filter_map. f_equal.
    apply map_ext. intros part. apply srcset_url_before_space.
  - apply (join_split ","%char).
  - apply split_parts_free.
  - apply srcset_url_first_token.
Qed.

Lemma parse_srcset_tokens_witness :
  parse_srcset " img/a-320.png 320w,  img/a-640.png   2x ,, "
  = ["img/a-320.png"; "img/a-640.png"]
  /\ srcset_url "  img/a-640.png   2x " = first_ws_token "  img/a-640.png   2x ".
Proof.
  destruct (parse_srcset_tokens " img/a-320.png 320w,  img/a-640.png   2x ,, ")
    as (E & _ & _ & H).
  split; [rewrite E; reflexivity|].
  apply H. reflexivity.
Defined.

(** C6 as stated fails: a descriptor set off by a tab stays in the token,
    where the first whitespace-delimited token stops at the tab. *)
Lemma tab_descriptor_stays_in_token :
  let v := String.append "a.png" (String.append TAB "2x, b.png 2x") in
  parse_srcset v = [String.append "a.png" (String.append TAB "2x"); "b.png"]
  /\ spec_parse_srcset v = ["a.png"; "b.png"]
  /\ parse_srcset v <> spec_parse_srcset v.
Proof.
  vm_compute. repeat split; discriminate.
Qed.

(** ** to_square_rgba: the geometry the source computes *)

(** X25.  For an image of non-negative width and height the crop box lies
    inside the image, is a square whose side is the smaller dimension, and
    is centred: the margins on two opposite sides differ by at most one
    pixel, the larger one being on the right or at the bottom. *)
Lemma crop_box_centred w h :
  0 <= w -> 0 <= h ->
  let '(x0, y0, x1, y1) := crop_box w h in
  0 <= x0 /\ 0 <= y0 /\ x1 <= w /\ y1 <= h
  /\ x1 - x0 = Z.min w h /\ y1 - y0 = Z.min w h
  /\ 0 <= (w - x1) - x0 <= 1 /\ 0 <= (h - y1) - y0 <= 1.
Proof.
  intros Hw Hh. unfold crop_box, square_side. cbv zeta.
  assert (H2 : forall d, 0 <= d -> 0 <= d / 2 /\ 0 <= d - 2 * (d / 2) <= 1).
  { intros d Hd. pose proof (Z.div_mod d 2 ltac:(lia)).
    pose proof (Z.mod_pos_bound d 2 ltac:(lia)).
    split; [apply Z.div_pos; lia|lia]. }
  destruct (H2 (w - Z.min w h) ltac:(lia)), (H2 (h - Z.min w h) ltac:(lia)).
  repeat split; lia.
Qed.

Lemma ring_width_bounds side :
  1 <= ring_width side /\ (32 <= side -> ring_width side = side / 32).
Proof.
  unfold ring_width. split; [lia|].
  intros H. assert (1 <= side / 32) by (apply Z.div_le_lower_bound; lia). lia.
Qed.

Section ImagingProps.

Variable pil : PIL.library.

(** What the library documents about sizes. *)
Hypothesis size_convert :
  forall img m, PIL.size pil (PIL.convert pil img m) = PIL.size pil img.
Hypothesis size_new : forall m sz c, PIL.size pil (PIL.new pil m sz c) = sz.
Hypothesis size_paste :
  forall base im off mask,
    PIL.size pil (PIL.paste pil base im off mask) = PIL.size pil base.
Hypothesis size_alpha_composite :
  forall a b, PIL.size pil (PIL.alpha_composite pil a b) = PIL.size pil a.


End ImagingProps.

(** ** The end-to-end example of the specification *)

Example end_to_end_example :
  let found :=
    find_candidate_image_urls (fun base ref => String.append base ref)
      [Element "img" {[ "src" := "cyber-badge.png" ]};
       Element "img" {[ "src" := "logo-background.png" ]}]
      "https://example.org/page/" in
  found = ["https://example.org/page/cyber-badge.png";
           "https://example.org/page/logo-background.png"]
  /\ select found = Some "https://example.org/page/cyber-badge.png".
Proof. vm_compute. split; reflexivity. Qed.

(** * Further properties of the code *)

(** ** score_url: bounds, size hints, blocked keywords *)

Lemma keyword_bonus_bounds l : 0 <= add_keywords KEYWORD_BONUS l 0 <= 42.
Proof.
  unfold add_keywords, KEYWORD_BONUS. cbn [fold_left fst snd].
  repeat match goal with |- context [if ?b then _ else _] => destruct b end; lia.
Qed.

Lemma keyword_penalty_bounds l : -83 <= add_keywords KEYWORD_PENALTY l 0 <= 0.
Proof.
  unfold add_keywords, KEYWORD_PENALTY. cbn [fold_left fst snd].
  repeat match goal with |- context [if ?b then _ else _] => destruct b end; lia.
Qed.

Lemma hosting_bonus_bounds l : 0 <= add_keywords HOSTING_BONUS l 0 <= 7.
Proof.
  unfold add_keywords, HOSTING_BONUS. cbn [fold_left fst snd].
  repeat match goal with |- context [if ?b then _ else _] => destruct b end; lia.
Qed.

Lemma format_bonus_bounds l : 0 <= format_bonus l <= 14.
Proof.
  rewrite format_bonus_table.
  repeat match goal with |- context [if ?b then _ else _] => destruct b end; lia.
Qed.

Lemma size_bonus_bounds l : 0 <= add_size SIZE_HINTS l 0 <= 16.
Proof.
  unfold SIZE_HINTS. cbn [add_size].
  repeat match goal with |- context [if ?b then _ else _] => destruct b end;
    vm_compute; split; discriminate.
Qed.

(** X1.  Every score lies between -83 and 79, and both ends are reached. *)
Theorem score_url_bounds :
  (forall url, -83 <= score_url url <= 79)
  /\ score_url
       "https://cdn.scouting.org/wp-content/uploads/cybersecurity-merit-badge-emblem-2048.png"
     = 79
  /\ score_url "fondo-blanco-liso-background-hero-logo-desktop@2x" = -83.
Proof.
  split; [|split; reflexivity].
  intros url. rewrite score_url_sum.
  pose proof (keyword_bonus_bounds (Py.lower url)).
  pose proof (keyword_penalty_bounds (Py.lower url)).
  pose proof (hosting_bonus_bounds (Py.lower url)).
  pose proof (format_bonus_bounds (Py.lower url)).
  pose proof (size_bonus_bounds (Py.lower url)).
  lia.
Qed.

Lemma add_size_none sizes l score :
  Forall (fun sz => Py.contains sz l = false) sizes ->
  add_size sizes l score = score.
Proof.
  induction 1 as [|sz sizes Hsz _ IH]; simpl; [reflexivity|].
  now rewrite Hsz.
Qed.

(** X2.  The size loop adds the bonus of the first hint of its list that
    occurs in the URL and nothing for hints listed after it; with no hint
    occurring it adds nothing. *)
Theorem add_size_first_hint (sizes pre post : list string) (sz l : string)
    (score : Z) :
  sizes = pre ++ sz :: post ->
  Forall (fun s => Py.contains s l = false) pre ->
  Py.contains sz l = true ->
  add_size sizes l score = score + Z.quot (Py.int sz) 128
  /\ add_size pre l score = score.
Proof.
  intros -> Hpre Hsz. split; [|now apply add_size_none].
  induction Hpre as [|s pre Hs _ IH]; simpl.
  - now rewrite Hsz.
  - now rewrite Hs.
Qed.

Lemma add_size_first_hint_witness :
  add_size SIZE_HINTS (Py.lower "https://x.org/Badge-1024x128.png") 0 = 8.
Proof.
  destruct (add_size_first_hint SIZE_HINTS ["2048"; "1536"]
              ["768"; "512"; "256"; "128"] "1024"
              (Py.lower "https://x.org/Badge-1024x128.png") 0 eq_refl)
    as [H _].
  - repeat constructor.
  - reflexivity.
  - rewrite H. reflexivity.
Defined.

Lemma starts_with_contains_r k1 k2 : forall l,
  Py.starts_with (String.append k1 k2) l = true -> Py.contains k2 l = true.
Proof.
  induction k1 as [|a k1 IH]; intros l H.
  - change (Py.starts_with k2 l = true) in H.
    destruct l; simpl in *; now rewrite H.
  - destruct l as [|b l]; [discriminate H|].
    change (Ascii.eqb a b && Py.starts_with (String.append k1 k2) l = true) in H.
    apply andb_true_iff in H as [_ H].
    cbn [Py.contains]. rewrite (IH l H). apply orb_true_r.
Qed.

Lemma contains_app_r k1 k2 l :
  Py.contains (String.append k1 k2) l = true -> Py.contains k2 l = true.
Proof.
  induction l as [|b l IH]; intros H.
  - cbn [Py.contains] in H. rewrite orb_false_r in H.
    now apply (starts_with_contains_r k1).
  - cbn [Py.contains] in H. apply orb_true_iff in H as [H|H].
    + now apply (starts_with_contains_r k1).
    + cbn [Py.contains]. rewrite (IH H). apply orb_true_r.
Qed.

Lemma is_blocked_first_six lu :
  is_blocked lu
  = Py.any (fun b => Py.contains b lu)
      ["fondo"; "blanco"; "liso"; "background"; "hero"; "logo"].
Proof.
  unfold is_blocked, bad_keywords, Py.any. cbn [existsb].
  destruct (Py.contains "scouting-america-logo" lu) eqn:H.
  - rewrite (contains_app_r "scouting-america-" "logo" lu H).
    now rewrite !orb_true_r.
  - now rewrite !orb_false_r.
Qed.

(** X3.  The last blocklist keyword adds nothing: a URL is blocked exactly
    when it contains one of the first six, and any URL containing
    "scouting-america-logo" contains "logo". *)
Theorem blocklist_last_keyword_subsumed (lu : string) :
  is_blocked lu
  = Py.any (fun b => Py.contains b lu)
      ["fondo"; "blanco"; "liso"; "background"; "hero"; "logo"]
  /\ (Py.contains "scouting-america-logo" lu = true ->
      Py.contains "logo" lu = true).
Proof.
  split; [apply is_blocked_first_six|].
  apply (contains_app_r "scouting-america-" "logo").
Qed.

Lemma blocklist_last_keyword_subsumed_witness :
  Py.contains "logo" (Py.lower "https://x.org/Scouting-America-Logo.png") = true.
Proof.
  apply (blocklist_last_keyword_subsumed
           (Py.lower "https://x.org/Scouting-America-Logo.png")).
  reflexivity.
Defined.

(** X4.  Every URL the selection blocks is also penalised by the score: its
    penalty group is at most -8 and its score at most 71. *)
Theorem blocked_url_is_penalised (url : string) :
  is_blocked (Py.lower url) = true ->
  add_keywords KEYWORD_PENALTY (Py.lower url) 0 <= -8 /\ score_url url <= 71.
Proof.
  intros Hb.
  assert (Hp : add_keywords KEYWORD_PENALTY (Py.lower url) 0 <= -8).
  { rewrite is_blocked_first_six in Hb.
    unfold Py.any in Hb. cbn [existsb] in Hb.
    unfold add_keywords, KEYWORD_PENALTY. cbn [fold_left fst snd].
    destruct (Py.contains "fondo" (Py.lower url)),
      (Py.contains "blanco" (Py.lower url)),
      (Py.contains "liso" (Py.lower url)),
      (Py.contains "background" (Py.lower url)),
      (Py.contains "hero" (Py.lower url)),
      (Py.contains "logo" (Py.lower url)),
      (Py.contains "desktop@2x" (Py.lower url));
      try discriminate Hb; lia. }
  split; [exact Hp|].
  rewrite score_url_sum.
  pose proof (keyword_bonus_bounds (Py.lower url)).
  pose proof (hosting_bonus_bounds (Py.lower url)).
  pose proof (format_bonus_bounds (Py.lower url)).
  pose proof (size_bonus_bounds (Py.lower url)).
  lia.
Qed.

Lemma blocked_url_is_penalised_witness :
  score_url "https://cdn.x.org/Scouting-America-Logo-2048.png" <= 71.
Proof.
  apply (blocked_url_is_penalised
           "https://cdn.x.org/Scouting-America-Logo-2048.png" eq_refl).
Defined.

(** ** parse_srcset: shape of the tokens, composition, blank input *)

Lemma has_char_rstrip c s : has_char c s = false -> has_char c (Py.rstrip s) = false.
Proof.
  induction s as [|a s IH]; [reflexivity|].
  cbn [has_char]. rewrite orb_false_iff. intros [Ha Hs].
  rewrite rstrip_cons. specialize (IH Hs).
  destruct (Py.rstrip s) as [|b r].
  - destruct (Py.is_space a); [reflexivity|]. cbn [has_char]. now rewrite Ha.
  - cbn [has_char] in *. now rewrite Ha, IH.
Qed.

Lemma has_char_lstrip c s : has_char c s = false -> has_char c (Py.lstrip s) = false.
Proof.
  induction s as [|a s IH]; [reflexivity|].
  intros H. cbn [Py.lstrip]. destruct (Py.is_space a); [|exact H].
  apply IH. cbn [has_char] in H. now apply orb_false_iff in H as [_ ?].
Qed.

Lemma has_char_before_space c s :
  has_char c s = false -> has_char c (before_space s) = false.
Proof.
  induction s as [|a s IH]; [reflexivity|].
  cbn [has_char before_space]. rewrite orb_false_iff. intros [Ha Hs].
  destruct (Ascii.eqb a " "); [reflexivity|].
  cbn [has_char]. now rewrite Ha, IH.
Qed.

Lemma before_space_no_space s : has_char " " (before_space s) = false.
Proof.
  induction s as [|a s IH]; [reflexivity|].
  cbn [before_space]. destruct (Ascii.eqb a " ") eqn:E; [reflexivity|].
  cbn [has_char]. now rewrite E, IH.
Qed.

Lemma head_nonspace_lstrip s : head_nonspace (Py.lstrip s) = true.
Proof.
  induction s as [|a s IH]; [reflexivity|].
  cbn [Py.lstrip]. destruct (Py.is_space a) eqn:E; [exact IH|].
  cbn [head_nonspace]. now rewrite E.
Qed.

Lemma head_nonspace_before_space s :
  head_nonspace s = true -> head_nonspace (before_space s) = true.
Proof.
  destruct s as [|a s]; [reflexivity|].
  cbn [before_space]. destruct (Ascii.eqb a " "); [reflexivity|].
  intros H. exact H.
Qed.

(** X5.  No URL the parse returns is empty, holds a comma or a space, or
    starts with a whitespace character. *)
Theorem parse_srcset_urls_clean (srcset_value : string) :
  Forall (fun url =>
            url <> "" /\ has_char "," url = false
            /\ has_char " " url = false /\ head_nonspace url = true)
    (parse_srcset srcset_value).
Proof.
  rewrite parse_srcset_filter_map, Forall_forall. intros url Hin.
  apply list_elem_of_In, filter_In in Hin as [Hin Hne].
  apply in_map_iff in Hin as (part & <- & Hpart).
  pose proof (split_parts_free ","%char srcset_value) as Hfree.
  rewrite Forall_forall in Hfree.
  specialize (Hfree part (proj2 (list_elem_of_In _ _) Hpart)). cbv beta in Hfree.
  rewrite srcset_url_before_space in *.
  refine (conj _ (conj _ (conj _ _))).
  - apply negb_true_iff, String.eqb_neq in Hne. exact Hne.
  - unfold Py.strip. now apply has_char_before_space, has_char_lstrip, has_char_rstrip.
  - apply before_space_no_space.
  - apply head_nonspace_before_space, head_nonspace_lstrip.
Qed.

Lemma split_app sep a b :
  Py.split sep (String.append a (String sep b))
  = Py.split sep a ++ Py.split sep b.
Proof.
  induction a as [|c a IH].
  - change (Py.split sep (String sep b) = [EmptyString] ++ Py.split sep b).
    cbn [Py.split]. now rewrite Ascii.eqb_refl.
  - change (Py.split sep (String c (String.append a (String sep b)))
            = Py.split sep (String c a) ++ Py.split sep b).
    cbn [Py.split]. rewrite IH.
    destruct (Ascii.eqb c sep); [reflexivity|].
    pose proof (split_nonempty sep a) as Hn.
    destruct (Py.split sep a) as [|p ps]; [congruence|reflexivity].
Qed.

(** X6.  Parsing two attribute values joined by a comma gives the URLs of
    the first followed by the URLs of the second. *)
Theorem parse_srcset_app (a b : string) :
  parse_srcset (String.append a (String "," b))
  = parse_srcset a ++ parse_srcset b.
Proof.
  rewrite !parse_srcset_filter_map, split_app, map_app.
  apply List.filter_app.
Qed.

Lemma string_forall_split p sep s :
  string_forall p s = true ->
  Forall (fun part => string_forall p part = true) (Py.split sep s).
Proof.
  induction s as [|c s IH]; [repeat constructor|].
  cbn [string_forall Py.split]. rewrite andb_true_iff. intros [Hc Hs].
  specialize (IH Hs).
  destruct (Ascii.eqb c sep); [constructor; [reflexivity|exact IH]|].
  destruct (Py.split sep s) as [|q qs].
  - repeat constructor. cbn [string_forall]. now rewrite Hc.
  - apply Forall_cons in IH as [Hq Hqs].
    constructor; [cbn [string_forall]; now rewrite Hc, Hq|exact Hqs].
Qed.

Lemma rstrip_all_space s :
  string_forall Py.is_space s = true -> Py.rstrip s = "".
Proof.
  induction s as [|c s IH]; [reflexivity|].
  cbn [string_forall]. rewrite andb_true_iff. intros [Hc Hs].
  rewrite rstrip_cons, (IH Hs), Hc. reflexivity.
Qed.

Lemma blank_part_all_space part :
  string_forall (fun c => Py.is_space c || Ascii.eqb c ",") part = true ->
  has_char "," part = false ->
  string_forall Py.is_space part = true.
Proof.
  induction part as [|c part IH]; [reflexivity|].
  cbn [string_forall has_char].
  rewrite andb_true_iff, orb_false_iff. intros [Hc Hs] [Hn Hf].
  rewrite Hn, orb_false_r in Hc. now rewrite Hc, IH.
Qed.

(** X7.  An attribute value made only of whitespace and commas, the empty
    one included, yields no URL. *)
Theorem parse_srcset_blank (srcset_value : string) :
  string_forall (fun c => Py.is_space c || Ascii.eqb c ",") srcset_value = true ->
  parse_srcset srcset_value = [].
Proof.
  intros Hb. rewrite parse_srcset_filter_map.
  pose proof (string_forall_split _ ","%char _ Hb) as Hall.
  pose proof (split_parts_free ","%char srcset_value) as Hfree.
  induction (Py.split "," srcset_value) as [|part parts IH]; [reflexivity|].
  apply Forall_cons in Hall as [Hp Hall]. apply Forall_cons in Hfree as [Hf Hfree].
  cbn [List.map List.filter].
  rewrite srcset_url_before_space. unfold Py.strip.
  rewrite (rstrip_all_space part (blank_part_all_space part Hp Hf)).
  cbn. now apply IH.
Qed.

Lemma parse_srcset_blank_witness :
  parse_srcset (String.append " , " (String.append TAB ",, ")) = [].
Proof.
  apply (parse_srcset_blank (String.append " , " (String.append TAB ",, "))).
  reflexivity.
Defined.

(** ** Discovery: ranking as an operation *)

Lemma rank_urls_In urls u :
  In u (rank_urls urls) <-> In u urls /\ has_img_ext u = true.
Proof.
  unfold rank_urls.
  pose proof (sort_desc_perm score_url (dedup_urls urls)) as Hp.
  split.
  - intros H. apply (Permutation_in _ Hp) in H.
    rewrite dedup_urls_first_seen, first_seen_In, filter_In in H. exact H.
  - intros H. apply (Permutation_in _ (Permutation_sym Hp)).
    rewrite dedup_urls_first_seen, first_seen_In, filter_In. exact H.
Qed.

Lemma filter_all_true {A} (p : A -> bool) l :
  (forall x, In x l -> p x = true) -> List.filter p l = l.
Proof.
  induction l as [|a l IH]; intros H; [reflexivity|].
  cbn [List.filter]. rewrite (H a (or_introl eq_refl)).
  f_equal. apply IH. intros x Hx. apply H. now right.
Qed.

Lemma filter_all_false {A} (p : A -> bool) l :
  (forall x, In x l -> p x = false) -> List.filter p l = [].
Proof.
  induction l as [|a l IH]; intros H; [reflexivity|].
  cbn [List.filter]. rewrite (H a (or_introl eq_refl)).
  apply IH. intros x Hx. apply H. now right.
Qed.

Lemma first_seen_NoDup_id l : List.NoDup l -> first_seen l = l.
Proof.
  induction 1 as [|x l Hx _ IH]; [reflexivity|].
  cbn [first_seen]. rewrite IH. f_equal.
  apply filter_all_true. intros y Hy.
  apply negb_true_iff, String.eqb_neq. intros ->. contradiction.
Qed.

Lemma sort_desc_sorted_id {A} (key : A -> Z) l :
  StronglySorted (fun a b => key b <= key a) l -> sort_desc key l = l.
Proof.
  induction 1 as [|x l Hs IH Hx]; [reflexivity|].
  cbn [sort_desc]. rewrite IH.
  destruct l as [|y l]; [reflexivity|].
  cbn [insert_desc]. apply Forall_cons in Hx as [Hy _].
  destruct (Z.ltb_spec (key x) (key y)); [lia|reflexivity].
Qed.

Lemma rank_urls_NoDup urls : List.NoDup (rank_urls urls).
Proof.
  unfold rank_urls.
  apply (Permutation_NoDup (Permutation_sym (sort_desc_perm _ _))).
  rewrite dedup_urls_first_seen. apply NoDup_ListNoDup, first_seen_NoDup.
Qed.

(** X8.  Ranking a ranked list changes nothing. *)
Theorem rank_urls_idempotent (urls : list string) :
  rank_urls (rank_urls urls) = rank_urls urls.
Proof.
  unfold rank_urls at 1.
  rewrite dedup_urls_first_seen, filter_all_true.
  - rewrite (first_seen_NoDup_id _ (rank_urls_NoDup urls)).
    apply sort_desc_sorted_id. apply sort_desc_sorted.
  - intros u Hu. now apply rank_urls_In in Hu.
Qed.

(** X9.  References that repeat earlier ones do not change the ranking. *)
Theorem rank_urls_repeats (urls again : list string) :
  (forall u, In u again -> In u urls) ->
  rank_urls (urls ++ again) = rank_urls urls.
Proof.
  intros Hsub. unfold rank_urls. f_equal.
  rewrite !dedup_urls_first_seen, List.filter_app, first_seen_app.
  rewrite (filter_all_false
             (fun y => negb (mem y (List.filter has_img_ext urls))));
    [apply app_nil_r|].
  intros y Hy. apply first_seen_In, filter_In in Hy as [Hy He].
  apply negb_false_iff, mem_In, filter_In. split; [apply Hsub, Hy|exact He].
Qed.

Lemma rank_urls_repeats_witness :
  rank_urls (["https://x.org/a.png"; "https://x.org/cyber.svg"]
             ++ ["https://x.org/cyber.svg"; "https://x.org/a.png";
                 "https://x.org/a.png"])
  = rank_urls ["https://x.org/a.png"; "https://x.org/cyber.svg"].
Proof.
  apply (rank_urls_repeats ["https://x.org/a.png"; "https://x.org/cyber.svg"]).
  intros u Hu. cbn [In] in *. intuition.
Defined.

(** X10.  The ranking is empty exactly when no reference ends in an image
    extension. *)
Theorem rank_urls_empty_iff (urls : list string) :
  rank_urls urls = [] <-> (forall u, In u urls -> has_img_ext u = false).
Proof.
  split.
  - intros E u Hu. destruct (has_img_ext u) eqn:He; [|reflexivity].
    assert (H : In u (rank_urls urls)) by (apply rank_urls_In; auto).
    rewrite E in H. destruct H.
  - intros H. destruct (rank_urls urls) as [|c cs] eqn:E; [reflexivity|].
    assert (Hc : In c (rank_urls urls)) by (rewrite E; now left).
    apply rank_urls_In in Hc as [Hc He]. rewrite (H c Hc) in He. discriminate.
Qed.

(** X11.  The first candidate has the largest score of all references that
    end in an image extension. *)
Theorem rank_urls_head_is_best (urls : list string) (c : string)
    (cs : list string) :
  rank_urls urls = c :: cs ->
  forall u, In u urls -> has_img_ext u = true -> score_url u <= score_url c.
Proof.
  intros E u Hu He.
  assert (Hin : In u (rank_urls urls)) by (apply rank_urls_In; auto).
  pose proof (sort_desc_sorted score_url (dedup_urls urls)) as Hs.
  fold (rank_urls urls) in Hs. rewrite E in Hs, Hin.
  apply StronglySorted_inv in Hs as [_ Hall].
  destruct Hin as [<-|Hin]; [lia|].
  rewrite Forall_forall in Hall. apply Hall, list_elem_of_In, Hin.
Qed.

Lemma rank_urls_head_is_best_witness :
  score_url "https://x.org/a.png" <= score_url "https://x.org/cyber.svg".
Proof.
  apply (rank_urls_head_is_best
           ["https://x.org/a.png"; "https://x.org/readme.txt";
            "https://x.org/cyber.svg"]
           "https://x.org/cyber.svg" ["https://x.org/a.png"]).
  - reflexivity.
  - now left.
  - reflexivity.
Defined.

Section DiscoveryProps.

Variable urljoin : string -> string -> string.

Lemma find_all_skip name doc1 e doc2 :
  String.eqb (tag_name e) name = false ->
  find_all name (doc1 ++ e :: doc2) = find_all name (doc1 ++ doc2).
Proof.
  intros H. unfold find_all. rewrite !List.filter_app. cbn [List.filter].
  now rewrite H.
Qed.

(** X12.  A tag that is not an img, a source or an a contributes nothing:
    dropping it from the document leaves the candidates unchanged. *)
Theorem other_tags_are_ignored (doc1 doc2 : soup) (e : element)
    (base_url : string) :
  tag_name e <> "img" -> tag_name e <> "source" -> tag_name e <> "a" ->
  find_candidate_image_urls urljoin (doc1 ++ e :: doc2) base_url
  = find_candidate_image_urls urljoin (doc1 ++ doc2) base_url.
Proof.
  intros H1 H2 H3. unfold find_candidate_image_urls, extract_refs.
  cbv zeta.
  rewrite !find_all_skip; [reflexivity| | |]; now apply String.eqb_neq.
Qed.

Lemma img_refs_acc base_url urls img :
  img_refs urljoin base_url urls img = urls ++ img_refs urljoin base_url [] img.
Proof.
  unfold img_refs.
  destruct (get img "src") as [src|], (get img "srcset") as [srcset|];
    repeat match goal with |- context [if ?b then _ else _] => destruct b end;
    cbn [app]; rewrite ?app_nil_r, <- ?app_assoc; reflexivity.
Qed.

Lemma source_refs_acc base_url urls source :
  source_refs urljoin base_url urls source
  = urls ++ source_refs urljoin base_url [] source.
Proof.
  unfold source_refs.
  destruct (get source "srcset") as [srcset|];
    repeat match goal with |- context [if ?b then _ else _] => destruct b end;
    cbn [app]; rewrite ?app_nil_r; reflexivity.
Qed.

Lemma anchor_refs_acc base_url urls a :
  anchor_refs urljoin base_url urls a = urls ++ anchor_refs urljoin base_url [] a.
Proof.
  unfold anchor_refs.
  destruct (get a "href") as [href|];
    repeat match goal with |- context [if ?b then _ else _] => destruct b end;
    cbn [app]; rewrite ?app_nil_r; reflexivity.
Qed.

Lemma fold_refs_flat_map {A} (step : list string -> A -> list string) l :
  (forall urls x, step urls x = urls ++ step [] x) ->
  forall acc, fold_left step l acc = acc ++ flat_map (step []) l.
Proof.
  intros Hstep. induction l as [|x l IH]; intros acc; cbn [fold_left flat_map].
  - now rewrite app_nil_r.
  - rewrite IH, (Hstep acc x). now rewrite <- app_assoc.
Qed.

(** X13.  The references are pooled by kind, not in document order: those
    of all img tags, then those of all source tags, then the image links
    of all a tags, each kind in document order. *)
Theorem extract_refs_by_kind (doc : soup) (base_url : string) :
  extract_refs urljoin doc base_url
  = flat_map (img_refs urljoin base_url []) (find_all "img" doc)
    ++ flat_map (source_refs urljoin base_url []) (find_all "source" doc)
    ++ flat_map (anchor_refs urljoin base_url []) (find_all "a" doc).
Proof.
  unfold extract_refs. cbv zeta.
  rewrite (fold_refs_flat_map _ _ (anchor_refs_acc base_url)).
  rewrite (fold_refs_flat_map _ _ (source_refs_acc base_url)).
  rewrite (fold_refs_flat_map _ _ (img_refs_acc base_url)).
  cbn [app]. now rewrite <- app_assoc.
Qed.

End DiscoveryProps.

Lemma other_tags_are_ignored_witness :
  find_candidate_image_urls demo_urljoin
    ([Element "img" {[ "src" := "https://x.org/logo.png" ]}]
     ++ Element "link" {[ "href" := "https://x.org/favicon.png" ]}
        :: [Element "a" {[ "href" := "https://x.org/icon.svg" ]}])
    PAGE_URL
  = demo_candidates.
Proof.
  rewrite (other_tags_are_ignored demo_urljoin
             [Element "img" {[ "src" := "https://x.org/logo.png" ]}]
             [Element "a" {[ "href" := "https://x.org/icon.svg" ]}]
             (Element "link" {[ "href" := "https://x.org/favicon.png" ]})
             PAGE_URL); [reflexivity| | |]; discriminate.
Defined.

(** ** Selection: totality, priority and fallback *)

Lemma rejected_passed_over accept u :
  negb (is_blocked (Py.lower u)) && accept (Py.lower u) = false ->
  passed_over accept u.
Proof.
  unfold passed_over.
  destruct (is_blocked (Py.lower u)); [now left|]. simpl. now right.
Qed.

Lemma select_pass_In accept cands u :
  select_pass accept cands = Some u -> In u cands.
Proof.
  intros H. destruct (select_pass_Some _ _ _ H) as (pre & post & -> & _).
  apply in_elt.
Qed.

(** X14.  Selection fails only on the empty list, and what it returns is
    one of the candidates. *)
Theorem select_is_a_candidate (cands : list string) :
  (select cands = None <-> cands = [])
  /\ (forall u, select cands = Some u -> In u cands).
Proof.
  rewrite select_cases.
  destruct (select_pass accept_cyber cands) as [u1|] eqn:H1.
  { split; [split; [discriminate|intros ->; discriminate H1]|].
    intros u [= <-]. eapply select_pass_In, H1. }
  destruct (select_pass accept_badge cands) as [u2|] eqn:H2.
  { split; [split; [discriminate|intros ->; discriminate H2]|].
    intros u [= <-]. eapply select_pass_In, H2. }
  destruct (select_pass accept_raster cands) as [u3|] eqn:H3.
  { split; [split; [discriminate|intros ->; discriminate H3]|].
    intros u [= <-]. eapply select_pass_In, H3. }
  destruct cands as [|c cands]; cbn [Py.first head].
  - split; [tauto|discriminate].
  - split; [split; discriminate|]. intros u [= <-]. now left.
Qed.

(** X15.  When some candidate is a raster URL that is not blocked, the
    selected URL is a raster URL that is not blocked. *)
Theorem select_prefers_open_raster (cands : list string) :
  Exists (fun c => open_raster c = true) cands ->
  exists u, select cands = Some u /\ open_raster u = true.
Proof.
  intros Hex.
  destruct (first_split open_raster cands Hex) as (pre & r & post & E & Hpre & Hr).
  assert (H3 : select_pass accept_raster cands = Some r).
  { rewrite E. unfold open_raster in Hr. cbv zeta in Hr.
    apply andb_true_iff in Hr as [Hb Ha]. apply negb_true_iff in Hb.
    apply select_pass_first; auto.
    eapply Forall_impl; [exact Hpre|]. intros c Hc.
    now apply rejected_passed_over. }
  assert (Hopen : forall accept u,
             (forall lu, accept lu = true -> ends_raster lu = true) ->
             select_pass accept cands = Some u -> open_raster u = true).
  { intros accept u Hacc H.
    destruct (select_pass_Some _ _ _ H) as (_ & _ & _ & _ & Hb & Ha).
    unfold open_raster. cbv zeta. now rewrite Hb, (Hacc _ Ha). }
  rewrite select_cases.
  destruct (select_pass accept_cyber cands) as [u1|] eqn:H1.
  { exists u1. split; [reflexivity|]. eapply Hopen; [apply accept_cyber_raster|exact H1]. }
  destruct (select_pass accept_badge cands) as [u2|] eqn:H2.
  { exists u2. split; [reflexivity|]. eapply Hopen; [apply accept_badge_raster|exact H2]. }
  rewrite H3. exists r. split; [reflexivity|exact Hr].
Qed.

Lemma select_prefers_open_raster_witness :
  exists u,
    select ["https://x.org/cyber-logo.png"; "https://x.org/badge.svg";
            "https://x.org/photo.jpeg"] = Some u
    /\ open_raster u = true.
Proof.
  apply (select_prefers_open_raster
           ["https://x.org/cyber-logo.png"; "https://x.org/badge.svg";
            "https://x.org/photo.jpeg"]).
  do 2 apply Exists_cons_tl. apply Exists_cons_hd. reflexivity.
Defined.

(** X16.  A raster URL that is not blocked and contains "cyber" wins over
    everything ranked before it: selection returns the first such
    candidate. *)
Theorem select_cyber_first (cands : list string) :
  Exists (fun c => cyber_candidate c = true) cands ->
  exists pre u post,
    cands = pre ++ u :: post
    /\ Forall (fun c => cyber_candidate c = false) pre
    /\ cyber_candidate u = true
    /\ select cands = Some u.
Proof.
  intros Hex.
  destruct (first_split cyber_candidate cands Hex) as (pre & u & post & E & Hpre & Hu).
  exists pre, u, post. repeat split; auto.
  rewrite select_cases.
  assert (H1 : select_pass accept_cyber cands = Some u).
  { rewrite E. unfold cyber_candidate in Hu. cbv zeta in Hu.
    apply andb_true_iff in Hu as [Hb Ha]. apply negb_true_iff in Hb.
    apply select_pass_first; auto.
    eapply Forall_impl; [exact Hpre|]. intros c Hc.
    now apply rejected_passed_over. }
  now rewrite H1.
Qed.

Lemma select_cyber_first_witness :
  select ["https://x.org/merit-badge-2048.png"; "https://x.org/cyber-hero.png";
          "https://x.org/Cyber.JPG"; "https://x.org/cyber.webp"]
  = Some "https://x.org/Cyber.JPG".
Proof.
  destruct (select_cyber_first
              ["https://x.org/merit-badge-2048.png"; "https://x.org/cyber-hero.png";
               "https://x.org/Cyber.JPG"; "https://x.org/cyber.webp"])
    as (pre & u & post & _ & _ & _ & H).
  - do 2 apply Exists_cons_tl. apply Exists_cons_hd. reflexivity.
  - rewrite H. vm_compute in H. exact (eq_sym H).
Defined.

(** X17.  When every raster candidate is blocked, or there is none, the
    blocklist is set aside and the first candidate is selected as it is. *)
Theorem select_falls_back_to_first (cands : list string) :
  Forall (fun c => open_raster c = false) cands ->
  select cands = Py.first cands.
Proof.
  intros Hall. rewrite select_cases.
  assert (Hnone : forall accept,
             (forall lu, accept lu = true -> ends_raster lu = true) ->
             select_pass accept cands = None).
  { intros accept Hacc. apply select_pass_none.
    eapply Forall_impl; [exact Hall|]. intros c Hc.
    apply rejected_passed_over. unfold open_raster in Hc. cbv zeta in Hc.
    destruct (is_blocked (Py.lower c)); [reflexivity|]. simpl in *.
    destruct (accept (Py.lower c)) eqn:Ha; [|reflexivity].
    apply Hacc in Ha. congruence. }
  rewrite (Hnone accept_cyber accept_cyber_raster).
  rewrite (Hnone accept_badge accept_badge_raster).
  now rewrite (Hnone accept_raster (fun _ H => H)).
Qed.

Lemma select_falls_back_to_first_witness :
  select ["https://x.org/cyber-logo.png"; "https://x.org/cyber.svg"]
  = Some "https://x.org/cyber-logo.png".
Proof.
  rewrite (select_falls_back_to_first
             ["https://x.org/cyber-logo.png"; "https://x.org/cyber.svg"]).
  - reflexivity.
  - repeat constructor.
Defined.

(** ** main: failures, the direct path and the bound on effects *)

Lemma out_src_not_favicon e : out_src_of e <> FAVICON_PATH.
Proof. intros H. vm_compute in H. congruence. Qed.

Lemma confined_ret {A} (a : A) : confined (ret a) 0 0.
Proof.
  intros w. exists []. cbn. rewrite app_nil_r.
  repeat split; auto.
Qed.

Lemma confined_raise {A} e : confined (@raise A e) 0 0.
Proof.
  intros w. exists []. cbn. rewrite app_nil_r.
  repeat split; auto.
Qed.

Lemma confined_print line : confined (print line) 0 0.
Proof.
  intros w. exists [Printed line]. cbn. repeat split; auto.
Qed.

Lemma confined_request url : confined (emit (Requested url)) 1 0.
Proof.
  intros w. exists [Requested url]. cbn. repeat split; auto.
Qed.

Lemma confined_write path data :
  allowed_path path -> confined (write_file path data) 0 1.
Proof.
  intros Hp w. exists [Wrote path]. cbn. repeat split; auto.
  intros p Hn. apply lookup_insert_ne. intros ->. apply Hn. now left.
Qed.

Lemma confined_weaken {A} (m : M A) a b a' b' :
  confined m a b -> (a <= a')%nat -> (b <= b')%nat -> confined m a' b'.
Proof.
  intros Hm Ha Hb w. destruct (Hm w) as (evs & T & R & W & P & F).
  exists evs. repeat split; auto; lia.
Qed.

Lemma confined_bind {A B} (m : M A) (k : A -> M B) a b c d :
  confined m a b -> (forall x, confined (k x) c d) ->
  confined (bind m k) (a + c) (b + d).
Proof.
  intros Hm Hk w. destruct (Hm w) as (e1 & T1 & R1 & W1 & P1 & F1).
  unfold bind. destruct (m w) as [[e|x] w'] eqn:E; cbn [snd] in *.
  - exists e1. repeat split; auto; lia.
  - destruct (Hk x w') as (e2 & T2 & R2 & W2 & P2 & F2).
    exists (e1 ++ e2). unfold requests, writes in *.
    rewrite !flat_map_app, !length_app.
    repeat split.
    + now rewrite T2, T1, app_assoc.
    + lia.
    + lia.
    + apply Forall_app. split; assumption.
    + intros p Hn. rewrite F2, F1; [reflexivity| |];
        intros Hin; apply Hn, in_or_app; auto.
Qed.

Lemma confined_for_each_print (f : string -> string) xs :
  confined (for_each xs (fun u => print (f u))) 0 0.
Proof.
  induction xs as [|x xs IH]; cbn [for_each]; [apply confined_ret|].
  apply (confined_bind _ _ 0 0 0 0); [apply confined_print|intros _; exact IH].
Qed.

Lemma confined_announce cands : confined (announce cands) 0 0.
Proof.
  unfold announce.
  apply (confined_bind _ _ 0 0 0 0); [apply confined_print|].
  intros _. apply confined_for_each_print.
Qed.

Section MainEffects.

Variable env : environment.
Variable pil : PIL.library.

Lemma confined_get_page_text url : confined (get_page_text env url) 1 0.
Proof.
  unfold get_page_text.
  apply (confined_bind _ _ 1 0 0 0); [apply confined_request|].
  intros _. destruct (http_get env url HEADERS);
    [apply confined_ret|apply confined_raise].
Qed.

Lemma confined_download_bytes url : confined (download_bytes env url) 1 0.
Proof.
  unfold download_bytes.
  apply (confined_bind _ _ 1 0 0 0); [apply confined_request|].
  intros _. destruct (http_get env url DOWNLOAD_HEADERS) as [r|];
    [destruct (status_ok r)|]; auto using @confined_ret, @confined_raise.
Qed.

Lemma confined_save_source chosen : confined (save_source env chosen) 1 1.
Proof.
  unfold save_source.
  apply (confined_bind _ _ 1 0 0 1); [apply confined_download_bytes|].
  intros data.
  apply (confined_bind _ _ 0 1 0 0);
    [apply confined_write; right; eexists; reflexivity|].
  intros _. apply (confined_bind _ _ 0 0 0 0); [apply confined_print|].
  intros _. apply confined_ret.
Qed.

Lemma confined_switch cands cur : confined (switch_to_raster env cands cur) 1 1.
Proof.
  induction cands as [|u cands IH]; cbn [switch_to_raster].
  - apply (confined_weaken _ 0 0); [apply confined_ret|lia|lia].
  - destruct (is_raster_url u); [|exact IH].
    apply (confined_bind _ _ 0 0 1 1); [apply confined_print|].
    intros _. apply confined_save_source.
Qed.

Lemma confined_acquire cands : confined (acquire_source env cands) 2 2.
Proof.
  unfold acquire_source.
  apply (confined_bind _ _ 0 0 2 2).
  { destruct (select cands); [apply confined_ret|apply confined_raise]. }
  intros chosen.
  apply (confined_bind _ _ 0 0 2 2); [apply confined_print|].
  intros _.
  apply (confined_bind _ _ 1 1 1 1); [apply confined_save_source|].
  intros cur. destruct (String.eqb _ _); [apply confined_switch|].
  apply (confined_weaken _ 0 0); [apply confined_ret|lia|lia].
Qed.

Lemma confined_write_icon cur : confined (write_icon pil cur) 0 1.
Proof.
  unfold write_icon.
  apply (confined_bind _ _ 0 0 0 1).
  { destruct (PIL.open pil (src_data cur));
      [apply confined_raise|apply confined_ret]. }
  intros img. cbv zeta.
  apply (confined_bind _ _ 0 1 0 0);
    [apply confined_write; now left|].
  intros _. apply confined_print.
Qed.

Lemma confined_main : confined (main env pil) 3 3.
Proof.
  unfold main.
  apply (confined_bind _ _ 0 0 3 3); [apply confined_print|].
  intros _.
  apply (confined_bind _ _ 1 0 2 3); [apply confined_get_page_text|].
  intros html. cbv zeta.
  destruct (find_candidate_image_urls _ _ _) as [|c cs].
  { apply (confined_weaken _ 0 0); [apply confined_raise|lia|lia]. }
  apply (confined_bind _ _ 0 0 2 3); [apply confined_announce|].
  intros _.
  apply (confined_bind _ _ 2 2 0 1); [apply confined_acquire|].
  intros cur. apply confined_write_icon.
Qed.

(** X18.  Whatever the page, the servers and the imaging library do, one
    run only adds to the log, makes at most three requests and three
    writes, writes only the icon and source images under the fixed stem,
    and leaves every other file as it was. *)
Theorem main_effects_are_bounded (w : world) :
  exists evs,
    trace (snd (main env pil w)) = trace w ++ evs
    /\ (length (requests evs) <= 3)%nat
    /\ (length (writes evs) <= 3)%nat
    /\ Forall allowed_path (writes evs)
    /\ (forall p, ~ In p (writes evs) ->
                  files (snd (main env pil w)) !! p = files w !! p).
Proof. apply confined_main. Qed.

(** X19.  When the page request raises, the run ends with that exception
    after the first log line and the request; nothing is written. *)
Theorem page_request_failure_is_fatal (w0 : world) :
  http_get env PAGE_URL HEADERS = None ->
  main env pil w0 =
    (inl (RequestException PAGE_URL),
     {| files := files w0;
        trace := (trace w0 ++ [Printed (String.append "Fetching page: " PAGE_URL)])
                 ++ [Requested PAGE_URL] |}).
Proof.
  intros Hg. unfold main, get_page_text.
  unfold bind at 1. cbv beta iota zeta.
  unfold print at 1, emit at 1. cbv beta iota zeta.
  unfold bind at 1, bind at 1, emit at 1. cbv beta iota zeta.
  rewrite Hg. reflexivity.
Qed.

Lemma save_source_fails chosen w :
  (http_get env chosen DOWNLOAD_HEADERS = None ->
   exists w', save_source env chosen w = (inl (RequestException chosen), w')
              /\ files w' = files w)
  /\ (forall r0, http_get env chosen DOWNLOAD_HEADERS = Some r0 ->
                 status_ok r0 = false ->
                 exists w', save_source env chosen w = (inl (HTTPError chosen), w')
                            /\ files w' = files w).
Proof.
  split.
  - intros Hg. eexists. unfold save_source, download_bytes, bind, emit, raise.
    cbv beta iota zeta. rewrite Hg. split; reflexivity.
  - intros r0 Hg Hok. eexists.
    unfold save_source, download_bytes, bind, emit, raise.
    cbv beta iota zeta. rewrite Hg. cbv beta iota zeta. rewrite Hok.
    split; reflexivity.
Qed.

Lemma acquire_download_fails cands chosen w e :
  select cands = Some chosen ->
  (forall w1, exists w', save_source env chosen w1 = (inl e, w')
                         /\ files w' = files w1) ->
  exists w', acquire_source env cands w = (inl e, w') /\ files w' = files w.
Proof.
  intros Hs Hsave. unfold acquire_source. rewrite Hs.
  unfold bind at 1, ret at 1. cbv beta iota zeta.
  destruct (print_files (String.append "Chosen image: " chosen) w)
    as (w0 & E0 & F0).
  unfold bind at 1. rewrite E0.
  destruct (Hsave w0) as (w1 & E1 & F1).
  unfold bind at 1. rewrite E1. exists w1. split; [reflexivity|congruence].
Qed.

(** X20.  When the download of the chosen URL raises or is answered with a
    failure status, the run ends with that error and no file has been
    written. *)
Theorem chosen_download_failure_is_fatal (w0 : world) (page : response)
    (cands : list string) (chosen : string) :
  http_get env PAGE_URL HEADERS = Some page ->
  find_candidate_image_urls (urljoin env) (parse_html env (text page)) PAGE_URL
  = cands ->
  select cands = Some chosen ->
  (http_get env chosen DOWNLOAD_HEADERS = None ->
   exists w, main env pil w0 = (inl (RequestException chosen), w)
             /\ files w = files w0)
  /\ (forall r0, http_get env chosen DOWNLOAD_HEADERS = Some r0 ->
                 status_ok r0 = false ->
                 exists w, main env pil w0 = (inl (HTTPError chosen), w)
                           /\ files w = files w0).
Proof.
  intros Hg Hc Hs.
  destruct (main_reaches_selection env pil w0 page cands Hg Hc
              (select_nonempty _ _ Hs)) as (w1 & F1 & Em).
  split.
  - intros Hd.
    destruct (acquire_download_fails cands chosen w1 (RequestException chosen) Hs)
      as (w2 & E2 & F2).
    { intros w. now apply save_source_fails. }
    exists w2. split; [|congruence].
    rewrite Em. unfold bind at 1. now rewrite E2.
  - intros r0 Hd Hok.
    destruct (acquire_download_fails cands chosen w1 (HTTPError chosen) Hs)
      as (w2 & E2 & F2).
    { intros w. now apply (proj2 (save_source_fails chosen w) r0). }
    exists w2. split; [|congruence].
    rewrite Em. unfold bind at 1. now rewrite E2.
Qed.

(** X21.  When the extension of the chosen URL is not ".svg" and its bytes
    do not decode, the run ends in [SystemExit] with the URL and the
    decoder's text in the message; the source file has been written, the
    icon has not. *)
Theorem decode_failure_is_fatal (w0 : world) (page : response)
    (cands : list string) (chosen : string) (r0 : response) (e : string) :
  http_get env PAGE_URL HEADERS = Some page ->
  find_candidate_image_urls (urljoin env) (parse_html env (text page)) PAGE_URL
  = cands ->
  select cands = Some chosen ->
  String.eqb (Py.lower (ext_of env chosen)) ".svg" = false ->
  http_get env chosen DOWNLOAD_HEADERS = Some r0 -> status_ok r0 = true ->
  PIL.open pil (content r0) = inl e ->
  exists w,
    main env pil w0 =
      (inl (SystemExit
              (String.append "Failed to open image from "
                 (String.append chosen (String.append ": " e)))), w)
    /\ files w = <[out_src_of (ext_of env chosen) := content r0]> (files w0)
    /\ files w !! FAVICON_PATH = files w0 !! FAVICON_PATH.
Proof.
  intros Hg Hc Hs Hext Hd Hok Hopen.
  destruct (main_reaches_selection env pil w0 page cands Hg Hc
              (select_nonempty _ _ Hs)) as (w1 & F1 & Em).
  destruct (acquire_chosen env cands chosen r0 w1 Hs Hd Hok) as (w2 & F2 & Ea).
  rewrite Hext in Ea.
  exists w2. split; [|split].
  - rewrite Em. unfold bind at 1. rewrite Ea. unfold ret at 1.
    unfold write_icon. unfold bind at 1. cbn [src_data saved src_chosen].
    rewrite Hopen. reflexivity.
  - rewrite F2, F1. reflexivity.
  - rewrite F2, F1. apply lookup_insert_ne, out_src_not_favicon.
Qed.


End MainEffects.

Lemma page_request_failure_is_fatal_witness :
  main offline_env demo_pil world0 =
    (inl (RequestException PAGE_URL),
     World ∅ [Printed (String.append "Fetching page: " PAGE_URL);
              Requested PAGE_URL]).
Proof.
  exact (page_request_failure_is_fatal offline_env demo_pil world0 eq_refl).
Defined.

Lemma chosen_download_failure_is_fatal_witness :
  exists w,
    main (demo_env missing_page) demo_pil world0
    = (inl (HTTPError "https://x.org/missing.png"), w)
    /\ files w = ∅.
Proof.
  destruct (chosen_download_failure_is_fatal (demo_env missing_page) demo_pil
              world0 (Response true "<html>" []) ["https://x.org/missing.png"]
              "https://x.org/missing.png" eq_refl eq_refl eq_refl) as [_ H].
  exact (H (Response false "" []) eq_refl eq_refl).
Defined.

Lemma decode_failure_is_fatal_witness :
  exists w,
    main (demo_env raster_page) broken_pil world0 =
      (inl (SystemExit
              "Failed to open image from https://x.org/logo.png: cannot identify image file"),
       w)
    /\ files w = <[PNG_PATH := PNG_BYTES]> ∅
    /\ files w !! FAVICON_PATH = None.
Proof.
  exact (decode_failure_is_fatal (demo_env raster_page) broken_pil world0
           (Response true "<html>" []) ["https://x.org/logo.png"]
           "https://x.org/logo.png" (Response true "" PNG_BYTES)
           "cannot identify image file"
           eq_refl eq_refl eq_refl eq_refl eq_refl eq_refl eq_refl).
Defined.


(** ** main: the page status, and a failing substitute *)

Lemma bind_cong {A B} (m1 m2 : M A) (k1 k2 : A -> M B) w :
  m1 w = m2 w -> (forall a w', k1 a w' = k2 a w') ->
  bind m1 k1 w = bind m2 k2 w.
Proof.
  intros Hm Hk. unfold bind. rewrite Hm.
  destruct (m2 w) as [[e|a] w']; [reflexivity|apply Hk].
Qed.

Section TwoEnvironments.

Variable env1 env2 : environment.
Variable pil : PIL.library.

Hypothesis same_urljoin : urljoin env1 = urljoin env2.
Hypothesis same_ext : url_path_ext env1 = url_path_ext env2.
Hypothesis same_parse : parse_html env1 = parse_html env2.
Hypothesis same_downloads :
  forall u, http_get env1 u DOWNLOAD_HEADERS = http_get env2 u DOWNLOAD_HEADERS.

Lemma save_source_agree u w : save_source env1 u w = save_source env2 u w.
Proof.
  unfold save_source, download_bytes, ext_of.
  now rewrite same_downloads, same_ext.
Qed.

Lemma switch_agree cands cur w :
  switch_to_raster env1 cands cur w = switch_to_raster env2 cands cur w.
Proof.
  induction cands as [|u cands IH]; cbn [switch_to_raster]; [reflexivity|].
  destruct (is_raster_url u); [|exact IH].
  apply bind_cong; [reflexivity|]. intros _ w'. apply save_source_agree.
Qed.

Lemma acquire_agree cands w :
  acquire_source env1 cands w = acquire_source env2 cands w.
Proof.
  unfold acquire_source.
  apply bind_cong; [reflexivity|]. intros chosen w1.
  apply bind_cong; [reflexivity|]. intros _ w2.
  apply bind_cong; [apply save_source_agree|]. intros cur w3.
  destruct (String.eqb _ _); [apply switch_agree|reflexivity].
Qed.

(** X23.  The status of the page response is never looked at: two
    environments that answer the page request with the same text, whatever
    the status, and agree on everything else give the same run. *)
Theorem page_status_is_ignored (p1 p2 : response) (w : world) :
  http_get env1 PAGE_URL HEADERS = Some p1 ->
  http_get env2 PAGE_URL HEADERS = Some p2 ->
  text p1 = text p2 ->
  main env1 pil w = main env2 pil w.
Proof.
  intros H1 H2 Ht. unfold main.
  apply bind_cong; [reflexivity|]. intros _ w1.
  apply bind_cong.
  { unfold get_page_text. now rewrite H1, H2, Ht. }
  intros html w2. cbv zeta. rewrite same_urljoin, same_parse.
  destruct (find_candidate_image_urls _ _ _) as [|c cs]; [reflexivity|].
  apply bind_cong; [reflexivity|]. intros _ w3.
  apply bind_cong; [apply acquire_agree|]. reflexivity.
Qed.

End TwoEnvironments.

Lemma page_status_is_ignored_witness :
  main (demo_env raster_page) demo_pil world0
  = main (failing_page_env raster_page) demo_pil world0.
Proof.
  apply (page_status_is_ignored (demo_env raster_page)
           (failing_page_env raster_page) demo_pil eq_refl eq_refl eq_refl)
    with (p1 := Response true "<html>" []) (p2 := Response false "<html>" []);
    try reflexivity.
  intros u. cbn. now rewrite andb_false_r.
Defined.

Section SubstituteFailure.

Variable env : environment.
Variable pil : PIL.library.

Lemma switch_first_fails pre r post cur rr w :
  Forall (fun u => is_raster_url u = false) pre ->
  is_raster_url r = true ->
  http_get env r DOWNLOAD_HEADERS = Some rr -> status_ok rr = false ->
  exists w',
    switch_to_raster env (pre ++ r :: post) cur w = (inl (HTTPError r), w')
    /\ files w' = files w.
Proof.
  intros Hpre Hr Hg Hok.
  induction Hpre as [|c pre Hc _ IH]; simpl.
  - rewrite Hr.
    destruct (print_files (String.append "Switching to raster candidate: " r) w)
      as (w1 & E1 & F1).
    destruct (proj2 (save_source_fails env r w1) rr Hg Hok) as (w2 & E2 & F2).
    exists w2. unfold bind. rewrite E1, E2. split; [reflexivity|congruence].
  - now rewrite Hc.
Qed.

(** X24.  When the extension of the chosen URL is ".svg" and the first
    raster candidate is answered with a failure status, the run ends with
    that error: the vector file has been written, the icon has not, and no
    later raster candidate is tried. *)
Theorem substitute_download_failure_is_fatal (w0 : world) (page : response)
    (cands pre post : list string) (chosen r : string) (r0 rr : response) :
  http_get env PAGE_URL HEADERS = Some page ->
  find_candidate_image_urls (urljoin env) (parse_html env (text page)) PAGE_URL
  = cands ->
  select cands = Some chosen ->
  Py.lower (ext_of env chosen) = ".svg" ->
  http_get env chosen DOWNLOAD_HEADERS = Some r0 -> status_ok r0 = true ->
  cands = pre ++ r :: post ->
  Forall (fun u => is_raster_url u = false) pre ->
  is_raster_url r = true ->
  http_get env r DOWNLOAD_HEADERS = Some rr -> status_ok rr = false ->
  exists w,
    main env pil w0 = (inl (HTTPError r), w)
    /\ files w = <[out_src_of (ext_of env chosen) := content r0]> (files w0)
    /\ files w !! FAVICON_PATH = files w0 !! FAVICON_PATH.
Proof.
  intros Hg Hc Hs Hext Hd Hok E Hpre Hr Hdr Hokr.
  destruct (main_reaches_selection env pil w0 page cands Hg Hc
              (select_nonempty _ _ Hs)) as (w1 & F1 & Em).
  destruct (acquire_chosen env cands chosen r0 w1 Hs Hd Hok) as (w2 & F2 & Ea).
  rewrite Hext in Ea. cbn [String.eqb Ascii.eqb Bool.eqb] in Ea.
  destruct (switch_first_fails pre r post (saved env chosen r0) rr w2
              Hpre Hr Hdr Hokr) as (w3 & E3 & F3).
  exists w3. split; [|split].
  - rewrite Em. unfold bind at 1. rewrite Ea, E, E3. reflexivity.
  - rewrite F3, F2, F1. reflexivity.
  - rewrite F3, F2, F1. apply lookup_insert_ne, out_src_not_favicon.
Qed.

End SubstituteFailure.

Lemma substitute_download_failure_is_fatal_witness :
  exists w,
    main (demo_env stale_page) demo_pil world0
    = (inl (HTTPError "https://x.org/old-logo.png"), w)
    /\ files w = <[SVG_PATH := SVG_BYTES]> ∅
    /\ files w !! FAVICON_PATH = None.
Proof.
  apply (substitute_download_failure_is_fatal (demo_env stale_page) demo_pil
           world0 (Response true "<html>" [])
           ["https://x.org/icon.svg"; "https://x.org/old-logo.png"]
           ["https://x.org/icon.svg"] [] "https://x.org/icon.svg"
           "https://x.org/old-logo.png" (Response true "" SVG_BYTES)
           (Response false "" []));
    try reflexivity.
  repeat constructor.
Defined.

Lemma crop_box_centred_witness :
  crop_box 641 480 = (80, 0, 560, 480) /\ 0 <= (641 - 560) - 80 <= 1.
Proof.
  pose proof (crop_box_centred 641 480 ltac:(lia) ltac:(lia)) as H.
  change (crop_box 641 480) with (80, 0, 560, 480) in H.
  cbv iota beta in H. split; [reflexivity|]. tauto.
Defined.

